(** * servo: PPM signal generation for RC servos

    A shallow embedding of the kernel driver [module/servo.c] and of the
    user-space thread variant [src/servo_user_test.c], with the properties
    of the timing state machine and of the control interface. *)

From Stdlib Require Import ZArith List Bool Ascii String Lia.
From stdpp Require Import base list.
Import ListNotations.

Local Open Scope Z_scope.

(** ** Machine integers *)

Module CInt.

(** The two data models the driver is built for: [unsigned long] and
    pointers are 32 bits wide on ILP32 (32-bit ARM) and 64 bits on LP64. *)
Inductive data_model := ILP32 | LP64.

Definition ulong_bits (dm : data_model) : Z :=
  match dm with ILP32 => 32 | LP64 => 64 end.

Definition sizeof_ptr (dm : data_model) : Z :=
  match dm with ILP32 => 4 | LP64 => 8 end.

(** Conversion to an unsigned integer of [w] bits. *)
Definition to_unsigned (w : Z) (x : Z) : Z := x mod 2 ^ w.

(** Conversion to a signed (two's complement) integer of [w] bits. *)
Definition to_signed (w : Z) (x : Z) : Z :=
  let u := x mod 2 ^ w in
  if u <? 2 ^ (w - 1) then u else u - 2 ^ w.

Definition to_uint32 : Z -> Z := to_unsigned 32.
Definition to_int32 : Z -> Z := to_signed 32.
Definition to_ulong (dm : data_model) : Z -> Z := to_unsigned (ulong_bits dm).
Definition to_s64 : Z -> Z := to_signed 64.

Definition KTIME_MAX : Z := 2 ^ 63 - 1.

End CInt.
Export CInt.

(** ** Settings and flags (servo.c, lines 36-45) *)

Definition MIN_PERIOD : Z := 1000000.
Definition MAX_PERIOD : Z := 2000000.
Definition SERVO_PERIOD : Z := 20000000.

Definition SERVO_ENABLED : Z := 0.
Definition SERVO_INVERTED : Z := 1.
Definition SERVO_ACTIVE : Z := 2.
Definition SERVO_OPEN : Z := 3.

(** ** Kernel primitives used by the driver *)

(** Bit operations on the flags word ([test_bit], [set_bit], [clear_bit],
    [change_bit]). *)
Definition test_bit (nr : Z) (word : Z) : bool := Z.testbit word nr.
Definition set_bit (nr : Z) (word : Z) : Z := Z.lor word (Z.shiftl 1 nr).
Definition clear_bit (nr : Z) (word : Z) : Z := Z.ldiff word (Z.shiftl 1 nr).
Definition change_bit (nr : Z) (word : Z) : Z := Z.lxor word (Z.shiftl 1 nr).

(** [ktime_add_ns]: signed 64-bit addition of nanoseconds to a [ktime_t]. *)
Definition ktime_add_ns (kt : Z) (ns : Z) : Z := to_s64 (kt + ns).

(** ** Channel state (struct servo_data, lines 57-66)

    [gpio] is the output line, modelled by the list of levels it was
    driven to, newest first: the level it is acquired with and those
    handed to [gpiod_set_value]; [timer_expires] is the expiry of the
    channel's hrtimer; [period_ns] is the value held by the [atomic_t]. *)
Record servo_data := mkServo {
  gpio : list bool;
  timer_expires : Z;
  period_ns : Z;
  flags : Z;
  t_switch : Z;
  t_next : Z;
  idx : Z
}.

Definition gpiod_set_value (value : bool) (s : servo_data) : servo_data :=
  mkServo (value :: gpio s) (timer_expires s) (period_ns s) (flags s)
          (t_switch s) (t_next s) (idx s).

Definition hrtimer_add_expires_ns (ns : Z) (s : servo_data) : servo_data :=
  mkServo (gpio s) (ktime_add_ns (timer_expires s) ns) (period_ns s) (flags s)
          (t_switch s) (t_next s) (idx s).

Definition with_flags (f : Z) (s : servo_data) : servo_data :=
  mkServo (gpio s) (timer_expires s) (period_ns s) f
          (t_switch s) (t_next s) (idx s).

Definition with_times (sw nx : Z) (s : servo_data) : servo_data :=
  mkServo (gpio s) (timer_expires s) (period_ns s) (flags s) sw nx (idx s).

(** [atomic_set] takes an [int]; [atomic_read] returns it. *)
Definition atomic_set (v : Z) (s : servo_data) : servo_data :=
  mkServo (gpio s) (timer_expires s) (to_int32 v) (flags s)
          (t_switch s) (t_next s) (idx s).

Definition atomic_read (s : servo_data) : Z := period_ns s.

(** The three fields of the data model the specification names. *)
Definition enabled (s : servo_data) : bool := test_bit SERVO_ENABLED (flags s).
Definition inverted (s : servo_data) : bool := test_bit SERVO_INVERTED (flags s).
Definition phase_active (s : servo_data) : bool := test_bit SERVO_ACTIVE (flags s).
Definition opened (s : servo_data) : bool := test_bit SERVO_OPEN (flags s).

(** ** Timing engine: the timer callback (servo_cb, lines 266-294) *)

Definition servo_cb (dm : data_model) (servo : servo_data) : servo_data :=
  if test_bit SERVO_ENABLED (flags servo) then
    if test_bit SERVO_ACTIVE (flags servo) then
      let s1 := gpiod_set_value (test_bit SERVO_INVERTED (flags servo)) servo in
      let s2 := with_flags (clear_bit SERVO_ACTIVE (flags s1)) s1 in
      hrtimer_add_expires_ns (t_next s2) s2
    else
      let s1 := gpiod_set_value (negb (test_bit SERVO_INVERTED (flags servo))) servo in
      let s2 := with_flags (set_bit SERVO_ACTIVE (flags s1)) s1 in
      let sw := to_ulong dm (atomic_read s2) in
      let nx := to_ulong dm (SERVO_PERIOD - sw) in
      let s3 := with_times sw nx s2 in
      hrtimer_add_expires_ns (t_switch s3) s3
  else
    hrtimer_add_expires_ns SERVO_PERIOD servo.

(** The hrtimer core runs the callback of a timer once the monotonic clock
    [now] has reached the timer's expiry, and, the callback returning
    [HRTIMER_RESTART], queues the timer again with the expiry the callback
    left in it. Before the expiry nothing runs. *)
Definition hrtimer_run (dm : data_model) (now : Z) (servo : servo_data)
  : option servo_data :=
  if timer_expires servo <=? now then Some (servo_cb dm servo) else None.

(** State of a channel as [servo_probe] leaves it (lines 176-187): the
    line is acquired with [GPIOD_OUT_HIGH], the timer is started
    [MIN_PERIOD] after the time [now] of the call; [t_switch] and [t_next]
    keep what [kmalloc] returned. *)
Definition servo_setup (now : Z) (i : Z) (sw0 nx0 : Z) : servo_data :=
  mkServo [true] (ktime_add_ns now MIN_PERIOD) (to_int32 MIN_PERIOD) 0
          sw0 nx0 i.

(** ** Text: characters, [sscanf] and [snprintf] *)

Definition NUL : ascii := Ascii.zero.
Definition newline : ascii := ascii_of_nat 10.
Definition minus_sign : ascii := ascii_of_nat 45.

Definition char_code (c : ascii) : Z := Z.of_nat (nat_of_ascii c).

Definition isdigit (c : ascii) : bool :=
  (48 <=? char_code c) && (char_code c <=? 57).

Definition is_digit_char (c : ascii) : Prop := isdigit c = true.

(** The kernel's [isspace]: HT, LF, VT, FF, CR, space and the no-break
    space 0xa0 of its character table. *)
Definition isspace (c : ascii) : bool :=
  ((9 <=? char_code c) && (char_code c <=? 13))
  || (char_code c =? 32) || (char_code c =? 160).

Definition digit_value (c : ascii) : Z := char_code c - 48.
Definition digit_char (d : Z) : ascii := ascii_of_nat (Z.to_nat (48 + d)).

Fixpoint skip_spaces (s : list ascii) : list ascii :=
  match s with
  | c :: s' => if isspace c then skip_spaces s' else s
  | [] => []
  end.

(** The digit loop of the kernel's integer parser, base 10. The
    accumulator is kept exact: the 64-bit accumulator of the kernel holds
    it modulo 2^64, and every use below reduces it modulo 2^32. *)
Fixpoint parse_integer (s : list ascii) (acc : Z) : Z :=
  match s with
  | c :: s' =>
      if isdigit c then parse_integer s' (acc * 10 + digit_value c) else acc
  | [] => acc
  end.

(** [sscanf(s, "%d\n", &out)] on the C string [s] (the bytes before the
    first NUL): [Some v] when one conversion is made (return value 1) and
    [v] is the [int] stored through [out]; [None] when none is made.
    White space is skipped, a '-' is accepted (a '+' is not), at least
    one digit must follow, and the value is truncated to an [int]. *)
Definition sscanf_d (s : list ascii) : option Z :=
  match skip_spaces s with
  | [] => None
  | c :: rest =>
      if Ascii.eqb c minus_sign then
        match rest with
        | d :: _ =>
            if isdigit d then Some (to_int32 (- parse_integer rest 0))
            else None
        | [] => None
        end
      else if isdigit c then Some (to_int32 (parse_integer (c :: rest) 0))
      else None
  end.

(** Decimal digits of a non-negative number, most significant first
    (the "%u" conversion). *)
Fixpoint utoa_aux (fuel : nat) (n : Z) (acc : list ascii) : list ascii :=
  match fuel with
  | O => acc
  | S fuel' =>
      let acc' := digit_char (n mod 10) :: acc in
      if n <? 10 then acc' else utoa_aux fuel' (n / 10) acc'
  end.

Definition utoa (n : Z) : list ascii := utoa_aux 20 n [].

(** ** Memory around the 16-byte buffer of the read and write paths

    [kframe] gives the byte at [kbuf + i] of the kernel stack: indices
    below [KBUF_SIZE] are the array [kbuf], the others are what lies
    behind it. Before the call it holds whatever the stack held. *)
Definition KBUF_SIZE : nat := 16.

Definition kframe := nat -> ascii.

Definition store_byte (i : nat) (c : ascii) (m : kframe) : kframe :=
  fun j => if Nat.eqb j i then c else m j.

(** [copy_from_user(kbuf, buf, n)]: [ubuf] is the readable memory at the
    user pointer; the copy succeeds when all [n] bytes are readable. *)
Definition copy_from_user (ubuf : list ascii) (n : nat) (m : kframe)
  : option kframe :=
  if Nat.leb n (length ubuf)
  then Some (fun j => if Nat.ltb j n then nth j ubuf NUL else m j)
  else None.

(** The bytes before the first NUL. *)
Fixpoint until_nul (s : list ascii) : list ascii :=
  match s with
  | c :: s' => if Ascii.eqb c NUL then [] else c :: until_nul s'
  | [] => []
  end.

(** The C string starting at [kbuf], given that a NUL occurs among the
    first [bound] bytes. *)
Definition c_string (bound : nat) (m : kframe) : list ascii :=
  until_nul (map m (seq 0 bound)).

(** ** Control interface: textual write (servo_write, lines 345-379) *)

Definition write_klen (len : nat) : nat := if Nat.ltb len 15 then len else 15%nat.

(** Index of the store [kbuf[klen+1] = '\0'] (line 358). *)
Definition terminator_index (len : nat) : nat := (write_klen len + 1)%nat.

(** The stack after lines 352 and 358, when the copy succeeds. *)
Definition servo_write_kbuf (ubuf : list ascii) (len : nat) (stale : kframe)
  : option kframe :=
  match copy_from_user ubuf (write_klen len) stale with
  | None => None
  | Some m => Some (store_byte (terminator_index len) NUL m)
  end.

(** Clamping as written at lines 365-374 and 451-460, on [unsigned int]. *)
Definition clamp_period (v : Z) : Z :=
  if v <? MIN_PERIOD then MIN_PERIOD
  else if v >? MAX_PERIOD then MAX_PERIOD
  else v.

Definition servo_write (servo : servo_data) (ubuf : list ascii) (len : nat)
    (stale : kframe) : Z * servo_data :=
  let klen := write_klen len in
  match servo_write_kbuf ubuf len stale with
  | None => (0, servo)
  | Some m =>
      match sscanf_d (c_string (terminator_index len + 1) m) with
      | None => (Z.of_nat klen, servo)
      | Some v =>
          let period := to_uint32 v in
          (Z.of_nat klen, atomic_set (clamp_period period) servo)
      end
  end.

(** ** Control interface: textual read (servo_read, lines 318-343)

    Returns the byte count, the new file offset and the bytes copied to
    the user buffer ([None] when nothing is copied). *)
Definition servo_read (servo : servo_data) (len : nat) (off : Z)
    (writable : bool) : Z * Z * option (list ascii) :=
  let period := to_uint32 (atomic_read servo) in
  if off >? 0 then (0, off, None)
  else
    let text := utoa period ++ [newline] in
    let klen := length text in
    let kbuf := take 15 text in
    let min := if Nat.ltb len klen then len else klen in
    if writable then (Z.of_nat min, off + Z.of_nat min, Some (take min kbuf))
    else (0, off, None).

(** ** Control interface: ioctl (lines 47-54 and servo_ioctl, 381-479) *)

Definition _IOC (dir type nr size : Z) : Z :=
  Z.lor (Z.shiftl dir 30)
        (Z.lor (Z.shiftl type 8) (Z.lor nr (Z.shiftl size 16))).
Definition _IO (type nr : Z) : Z := _IOC 0 type nr 0.
Definition _IOW (type nr size : Z) : Z := _IOC 1 type nr size.
Definition _IOR (type nr size : Z) : Z := _IOC 2 type nr size.

Definition char_s : Z := 115.

Definition SERVO_ENB (dm : data_model) : Z := _IO char_s 0.
Definition SERVO_DIS (dm : data_model) : Z := _IO char_s 1.
Definition SERVO_INV (dm : data_model) : Z := _IO char_s 2.
Definition SERVO_WF (dm : data_model) : Z := _IOW char_s 3 (sizeof_ptr dm).
Definition SERVO_RF (dm : data_model) : Z := _IOR char_s 4 (sizeof_ptr dm).
Definition SERVO_WV (dm : data_model) : Z := _IOW char_s 5 (sizeof_ptr dm).
Definition SERVO_RV (dm : data_model) : Z := _IOW char_s 6 (sizeof_ptr dm).

Definition assign_bit (nr : Z) (on : bool) (word : Z) : Z :=
  if on then set_bit nr word else clear_bit nr word.

(** [arg] is the 32-bit word of user memory the third argument points to:
    [Some v] when it can be read and written, [None] when the access
    faults. The result is the return value, the channel and that word. *)
Definition servo_ioctl (dm : data_model) (servo : servo_data) (cmd : Z)
    (arg : option Z) : Z * servo_data * option Z :=
  if cmd =? SERVO_ENB dm then
    let s1 := with_flags (clear_bit SERVO_ACTIVE (flags servo)) servo in
    (0, with_flags (set_bit SERVO_ENABLED (flags s1)) s1, arg)
  else if cmd =? SERVO_DIS dm then
    (0, with_flags (clear_bit SERVO_ENABLED (flags servo)) servo, arg)
  else if cmd =? SERVO_INV dm then
    (0, with_flags (change_bit SERVO_INVERTED (flags servo)) servo, arg)
  else if cmd =? SERVO_WF dm then
    match arg with
    | None => (-1, servo, arg)
    | Some u =>
        let new_value := to_uint32 u in
        let s1 :=
          with_flags (assign_bit SERVO_ENABLED
                        (negb (Z.land new_value (Z.shiftl 1 SERVO_ENABLED) =? 0))
                        (flags servo)) servo in
        let s2 :=
          with_flags (assign_bit SERVO_INVERTED
                        (negb (Z.land new_value (Z.shiftl 1 SERVO_INVERTED) =? 0))
                        (flags s1)) s1 in
        (0, s2, arg)
    end
  else if cmd =? SERVO_RF dm then
    let v0 := 0 in
    let v1 := if test_bit SERVO_ENABLED (flags servo)
              then Z.lor v0 (Z.shiftl 1 SERVO_ENABLED) else v0 in
    let v2 := if test_bit SERVO_INVERTED (flags servo)
              then Z.lor v1 (Z.shiftl 1 SERVO_INVERTED) else v1 in
    match arg with
    | None => (-2, servo, None)
    | Some _ => (0, servo, Some v2)
    end
  else if cmd =? SERVO_WV dm then
    match arg with
    | None => (-3, servo, arg)
    | Some u =>
        let new_value := to_uint32 u in
        (0, atomic_set (clamp_period new_value) servo, arg)
    end
  else if cmd =? SERVO_RV dm then
    let new_value := to_uint32 (atomic_read servo) in
    match arg with
    | None => (-4, servo, None)
    | Some _ => (0, servo, Some new_value)
    end
  else (-5, servo, arg).

(** ** Control interface: sessions (servo_open 296-309, servo_release 311-316)

    [servos] is the array of channels, indexed by the minor number; a file
    holds in [private_data] the index of the channel it points to. An
    index outside the array gives no result. *)
Record file := mkFile { private_data : option nat }.

Definition servo_open (servos : list servo_data) (minor : nat) (filp : file)
  : option (Z * list servo_data * file) :=
  match servos !! minor with
  | None => None
  | Some s =>
      if test_bit SERVO_OPEN (flags s) then Some (-1, servos, filp)
      else
        Some (0, <[minor := with_flags (set_bit SERVO_OPEN (flags s)) s]> servos,
              mkFile (Some minor))
  end.

Definition servo_release (servos : list servo_data) (minor : nat) (filp : file)
  : option (Z * list servo_data * file) :=
  match servos !! minor with
  | None => None
  | Some s =>
      Some (0, <[minor := with_flags (clear_bit SERVO_OPEN (flags s)) s]> servos,
            filp)
  end.

(** ** Initialization (servo_probe, lines 122-241)

    The calls the probe makes on its collaborators are recorded in a
    trace, oldest first. What the collaborators answer is given by the
    environment. *)
Inductive event :=
| of_node_put
| kmalloc
| kfree
| alloc_chrdev_region
| unregister_chrdev_region
| gpiod_get_index (i : nat)
| hrtimer_start (i : nat) (ns : Z)
| hrtimer_cancel (i : nat)
| gpiod_set (i : nat) (value : bool)
| gpiod_put (i : nat)
| cdev_init
| class_create
| class_destroy
| cdev_add
| cdev_del
| device_create (i : nat)
| device_destroy (i : nat).

Record probe_env := mkEnv {
  dt_node_found : bool;
  (** result of [kstrtou8] on the "n-servos" property *)
  n_servos_prop : option nat;
  kmalloc_ok : bool;
  gpio_ok : nat -> bool;
  class_create_ok : bool;
  cdev_add_ok : bool;
  device_create_ok : nat -> bool
}.

(** The loop of lines 174-190 from index [i] on, [todo] channels left:
    the trace and whether every line was acquired. *)
Fixpoint acquire_loop (env : probe_env) (i todo : nat) : list event * bool :=
  match todo with
  | O => ([], true)
  | S todo' =>
      if gpio_ok env i then
        let (tr, ok) := acquire_loop env (S i) todo' in
        (gpiod_get_index i :: hrtimer_start i MIN_PERIOD :: tr, ok)
      else ([gpiod_get_index i], false)
  end.

(** The loop of lines 204-214. *)
Fixpoint device_loop (env : probe_env) (i todo : nat) : list event * bool :=
  match todo with
  | O => ([], true)
  | S todo' =>
      if device_create_ok env i then
        let (tr, ok) := device_loop env (S i) todo' in
        (device_create i :: tr, ok)
      else ([device_create i], false)
  end.

(** The labels of the failure path, lines 220-240. *)
Definition nservo_fail : list event := [of_node_put].

(** The body of the loop of lines 230-235 for channel [i]. *)
Definition unwind_channel (i : nat) : list event :=
  [hrtimer_cancel i; gpiod_set i false; gpiod_put i].

Definition gpio_fail (n : nat) : list event :=
  flat_map unwind_channel (seq 0 n)
  ++ [unregister_chrdev_region; kfree] ++ nservo_fail.

Definition class_fail (n : nat) : list event := cdev_del :: gpio_fail n.

Definition device_fail (n : nat) : list event :=
  map device_destroy (seq 0 n) ++ [class_destroy] ++ class_fail n.

(** The return value and the trace. The test of line 165 compares an
    [unsigned int] with 0 and never holds. *)
Definition servo_probe (env : probe_env) : Z * list event :=
  if negb (dt_node_found env) then (-1, [])
  else
    match n_servos_prop env with
    | None => (-1, nservo_fail)
    | Some n =>
        if negb (kmalloc_ok env) then (-1, kmalloc :: nservo_fail)
        else
          let pre := [kmalloc; alloc_chrdev_region] in
          let (tr1, ok1) := acquire_loop env 0 n in
          if negb ok1 then (-1, pre ++ tr1 ++ gpio_fail n)
          else if negb (class_create_ok env) then
            (-1, pre ++ tr1 ++ [cdev_init; class_create] ++ class_fail n)
          else if negb (cdev_add_ok env) then
            (-1, pre ++ tr1 ++ [cdev_init; class_create; cdev_add] ++ class_fail n)
          else
            let (tr2, ok2) := device_loop env 0 n in
            if negb ok2 then
              (-1, pre ++ tr1 ++ [cdev_init; class_create; cdev_add] ++ tr2
                   ++ device_fail n)
            else
              (0, pre ++ tr1 ++ [cdev_init; class_create; cdev_add] ++ tr2)
    end.

(** The channels the failure path unwinds, in the order it does, read off
    the trace: one entry per [hrtimer_cancel]. *)
Definition unwound (tr : list event) : list nat :=
  flat_map (fun e => match e with hrtimer_cancel i => [i] | _ => [] end) tr.

(** The channels whose line was acquired, in acquisition order: the
    [gpiod_get_index] calls that were followed by [hrtimer_start]. *)
Definition acquired (tr : list event) : list nat :=
  flat_map (fun e => match e with hrtimer_start i _ => [i] | _ => [] end) tr.

(** The unwinding calls of the trace that concern the channels below [k]. *)
Definition is_unwind_below (k : nat) (e : event) : bool :=
  match e with
  | hrtimer_cancel i | gpiod_set i _ | gpiod_put i => Nat.ltb i k
  | _ => false
  end.

(** ** The thread variant (servo_user_test.c, servo_channel, lines 163-187) *)

Record timespec := mkTimespec { tv_sec : Z; tv_nsec : Z }.

Definition NSEC_PER_SEC : Z := 1000000000.

Definition timespec_ns (t : timespec) : Z := tv_sec t * NSEC_PER_SEC + tv_nsec t.

Definition SERVO_BIT : Z := 2.

(** [dat_reg] is the output register, [th_next] the variable [t_next] and
    [clock] the monotonic clock, in nanoseconds. *)
Record thread_state := mkThread {
  dat_reg : Z;
  th_next : timespec;
  clock : Z
}.

(** [clock_nanosleep(CLOCK_MONOTONIC, TIMER_ABSTIME, &t, NULL)]: returns
    once the clock has reached [t], [latency >= 0] later; at once when
    [t] is already past. *)
Definition clock_nanosleep_abs (t : timespec) (latency : Z) (now : Z) : Z :=
  Z.max now (timespec_ns t) + latency.

Definition toggle_servo_bit (reg : Z) : Z :=
  to_uint32 (Z.lxor reg (Z.shiftl 1 SERVO_BIT)).

Inductive loop_result :=
| loop_break (st : thread_state)
| loop_next (sw : timespec) (st : thread_state).

(** One turn of the loop of lines 165-187. [p1] and [p2] are the two
    reads of [pulse_ns] (lines 169 and 175), [lat1] and [lat2] the
    latencies of the two sleeps. Division and remainder truncate. *)
Definition servo_channel_turn (p1 p2 lat1 lat2 : Z) (st : thread_state)
  : loop_result :=
  let reg1 := toggle_servo_bit (dat_reg st) in
  if p1 <? 0 then loop_break (mkThread reg1 (th_next st) (clock st))
  else
    let t_next0 := th_next st in
    let sw_sec0 := tv_sec t_next0 in
    let sw_nsec0 := tv_nsec t_next0 + p2 in
    let nx_nsec0 := tv_nsec t_next0 + 20000000 in
    let sw_sec := sw_sec0 + Z.quot sw_nsec0 1000000000 in
    let sw_nsec := Z.rem sw_nsec0 1000000000 in
    let nx_sec := tv_sec t_next0 + Z.quot nx_nsec0 1000000000 in
    let nx_nsec := Z.rem nx_nsec0 1000000000 in
    let t_sw := mkTimespec sw_sec sw_nsec in
    let t_nx := mkTimespec nx_sec nx_nsec in
    let now1 := clock_nanosleep_abs t_sw lat1 (clock st) in
    let reg2 := toggle_servo_bit reg1 in
    let now2 := clock_nanosleep_abs t_nx lat2 now1 in
    loop_next t_sw (mkThread reg2 t_nx now2).

(** ** Frames and reachable channel states *)

(** The range the pulse width is kept in. *)
Definition servo_inv (s : servo_data) : Prop :=
  MIN_PERIOD <= period_ns s <= MAX_PERIOD.

(** A rewrite of the pulse width through the control interface: the
    ioctl [SERVO_WV] or the textual write. *)
Inductive width_write :=
| width_ioctl (arg : option Z)
| width_text (ubuf : list ascii) (len : nat) (stale : kframe).

Definition apply_width_write (dm : data_model) (s : servo_data)
    (w : width_write) : servo_data :=
  match w with
  | width_ioctl arg => snd (fst (servo_ioctl dm s (SERVO_WV dm) arg))
  | width_text ubuf len stale => snd (servo_write s ubuf len stale)
  end.

Definition width_writes (dm : data_model) (ws : list width_write)
    (s : servo_data) : servo_data :=
  fold_left (apply_width_write dm) ws s.

(** What can happen to a channel once it is set up: its timer fires, or
    a control operation is made on it (open and release only touch the
    open bit). *)
Inductive channel_step (dm : data_model) : servo_data -> servo_data -> Prop :=
| step_fire s : channel_step dm s (servo_cb dm s)
| step_ioctl s cmd arg :
    channel_step dm s (snd (fst (servo_ioctl dm s cmd arg)))
| step_write s ubuf len stale :
    channel_step dm s (snd (servo_write s ubuf len stale))
| step_open s :
    channel_step dm s (with_flags (set_bit SERVO_OPEN (flags s)) s)
| step_release s :
    channel_step dm s (with_flags (clear_bit SERVO_OPEN (flags s)) s).

Inductive reachable (dm : data_model) : servo_data -> Prop :=
| reach_setup now i sw0 nx0 : reachable dm (servo_setup now i sw0 nx0)
| reach_step s s' :
    reachable dm s -> channel_step dm s s' -> reachable dm s'.

(** The duration the callback adds to the expiry, by the state it finds. *)
Definition armed_duration (dm : data_model) (s : servo_data) : Z :=
  if enabled s then
    if phase_active s then t_next s else to_ulong dm (period_ns s)
  else SERVO_PERIOD.

(** The value a width read hands back (ioctl [SERVO_RV]). *)
Definition read_width (dm : data_model) (s : servo_data) : option Z :=
  snd (servo_ioctl dm s (SERVO_RV dm) (Some 0)).

(** The text "-m\n" and the text "v\n". *)
Definition negative_text (m : Z) : list ascii := minus_sign :: utoa m ++ [newline].
Definition decimal_text (v : Z) : list ascii := utoa v ++ [newline].

(** The calls that set up channel [i] when its line is acquired. *)
Definition setup_channel (i : nat) : list event :=
  [gpiod_get_index i; hrtimer_start i MIN_PERIOD].

(** An environment with three channels in which the line of channel 2
    cannot be acquired. *)
Definition env_third_line_busy : probe_env :=
  mkEnv true (Some 3%nat) true (fun i => Nat.ltb i 2) true true (fun _ => true).

(** ** Sample inputs *)

(** A channel in mid-operation: enabled, idle, width 1.5 ms. *)
Definition sample_idle : servo_data :=
  mkServo [true] 1000000 1500000 (set_bit SERVO_ENABLED 0) 0 0 0.

(** The same channel disabled. *)
Definition sample_disabled : servo_data :=
  mkServo [true] 1000000 1500000 0 0 0 0.

(** The same channel in the middle of a pulse, its session open. *)
Definition sample_pulse : servo_data :=
  mkServo [true; true] 2500000 1500000 13 1500000 18500000 0.

Definition text_of (s : string) : list ascii := list_ascii_of_string s.

(** Stacks that held NUL bytes, or the digit '7', before the call. *)
Definition stale_nul : kframe := fun _ => NUL.
Definition stale_seven : kframe := fun _ => ascii_of_nat 55.

(** ** Removal (servo_remove, lines 243-264) *)

(** The body of the loop of lines 247-254 for channel [i]. *)
Definition remove_channel (i : nat) : list event :=
  [device_destroy i; hrtimer_cancel i; gpiod_set i false; gpiod_put i].

(** The return value and the trace of the removal of [n] channels. *)
Definition servo_remove (n : nat) : Z * list event :=
  (0, flat_map remove_channel (seq 0 n)
      ++ [class_destroy; cdev_del; unregister_chrdev_region; kfree;
          of_node_put]).

(** Further readings of a trace: the channels whose line is released,
    the devices destroyed, and the device numbers handed to
    [device_create]. *)
Definition released (tr : list event) : list nat :=
  flat_map (fun e => match e with gpiod_put i => [i] | _ => [] end) tr.

Definition destroyed (tr : list event) : list nat :=
  flat_map (fun e => match e with device_destroy i => [i] | _ => [] end) tr.

Definition created (tr : list event) : list nat :=
  flat_map (fun e => match e with device_create i => [i] | _ => [] end) tr.

(** Whether every collaborator of the probe answers with success, for
    [n] channels. *)
Definition probe_all_ok (env : probe_env) (n : nat) : bool :=
  kmalloc_ok env && forallb (gpio_ok env) (seq 0 n)
  && class_create_ok env && cdev_add_ok env
  && forallb (device_create_ok env) (seq 0 n).

(** An environment in which every call succeeds, for two channels, and
    one in which the second device cannot be created. *)
Definition env_all_fine : probe_env :=
  mkEnv true (Some 2%nat) true (fun _ => true) true true (fun _ => true).

Definition env_second_device_fails : probe_env :=
  mkEnv true (Some 2%nat) true (fun _ => true) true true (fun i => Nat.ltb i 1).

(** ** Runs of the timer callback *)

(** One frame: two firings; and [n] firings or frames in a row with no
    control operation in between. *)
Definition servo_frame (dm : data_model) (s : servo_data) : servo_data :=
  servo_cb dm (servo_cb dm s).

Definition run_frames (dm : data_model) (n : nat) (s : servo_data)
  : servo_data :=
  Nat.iter n (servo_frame dm) s.

Definition run_firings (dm : data_model) (n : nat) (s : servo_data)
  : servo_data :=
  Nat.iter n (servo_cb dm) s.

(** The levels one frame drives the line to, newest first, [n] times. *)
Fixpoint frame_levels (inv : bool) (n : nat) : list bool :=
  match n with
  | O => []
  | S n' => inv :: negb inv :: frame_levels inv n'
  end.

(** What holds of the timing fields while a pulse is under way. *)
Definition pulse_fields_ok (s : servo_data) : Prop :=
  phase_active s = true ->
  MIN_PERIOD <= t_switch s <= MAX_PERIOD
  /\ t_next s = SERVO_PERIOD - t_switch s.

(** The ioctl commands by name, for the operations that take no
    argument, and the flags read. *)
Definition do_ioctl (dm : data_model) (cmd : Z) (s : servo_data) : servo_data :=
  snd (fst (servo_ioctl dm s cmd None)).

Definition read_flags (dm : data_model) (s : servo_data) : option Z :=
  snd (servo_ioctl dm s (SERVO_RF dm) (Some 0)).

Definition write_flags (dm : data_model) (u : Z) (s : servo_data) : servo_data :=
  snd (fst (servo_ioctl dm s (SERVO_WF dm) (Some u))).

(** ** The rest of the thread variant (servo_channel, lines 154-189) *)

Definition CON_SHIFT : Z := SERVO_BIT * 4.

(** Lines 155-156 on the configuration register: the constants are
    [int]s, [~0x1] is -2 and the shift of it is arithmetic. *)
Definition gpio_set_output (con : Z) : Z :=
  let con1 := to_uint32 (Z.lor con (Z.shiftl 1 CON_SHIFT)) in
  to_uint32 (Z.land con1 (Z.lnot (Z.shiftl (Z.lnot 1) CON_SHIFT))).

(** Line 158 and line 189 on the data register. *)
Definition raise_servo_bit (reg : Z) : Z :=
  to_uint32 (Z.lor reg (Z.shiftl 1 SERVO_BIT)).

Definition lower_servo_bit (reg : Z) : Z :=
  to_uint32 (Z.land reg (Z.lnot (Z.shiftl 1 SERVO_BIT))).

(** The inputs of one turn of the loop: the two reads of [pulse_ns] and
    the latencies of the two sleeps. *)
Record turn_input := mkTurn {
  in_p1 : Z; in_p2 : Z; in_lat1 : Z; in_lat2 : Z
}.

(** The loop of lines 165-187 over the given turns, and line 189 when it
    is left: the state, and whether the loop was left. *)
Fixpoint servo_channel_loop (ins : list turn_input) (st : thread_state)
  : thread_state * bool :=
  match ins with
  | [] => (st, false)
  | i :: rest =>
      match servo_channel_turn (in_p1 i) (in_p2 i) (in_lat1 i) (in_lat2 i) st with
      | loop_break st' =>
          (mkThread (lower_servo_bit (dat_reg st')) (th_next st') (clock st'),
           true)
      | loop_next _ st' => servo_channel_loop rest st'
      end
  end.

Definition turn_ok (i : turn_input) : Prop :=
  0 <= in_p1 i /\ 0 <= in_p2 i <= 1000000000.

(** * Properties *)

(** ** Integer conversions *)

Lemma to_int32_id x : 0 <= x < 2 ^ 31 -> to_int32 x = x.
Proof.
  intros H. unfold to_int32, to_signed.
  change (2 ^ (32 - 1)) with 2147483648. change (2 ^ 32) with 4294967296.
  change (2 ^ 31) with 2147483648 in H.
  rewrite Z.mod_small by lia.
  destruct (Z.ltb_spec x 2147483648); lia.
Qed.

Lemma to_uint32_id x : 0 <= x < 2 ^ 32 -> to_uint32 x = x.
Proof. intros H. unfold to_uint32, to_unsigned. apply Z.mod_small; lia. Qed.

Lemma to_uint32_range x : 0 <= to_uint32 x < 2 ^ 32.
Proof. unfold to_uint32, to_unsigned. apply Z.mod_pos_bound. reflexivity. Qed.

Lemma to_ulong_id dm x : 0 <= x < 2 ^ 32 -> to_ulong dm x = x.
Proof.
  intros H. unfold to_ulong, to_unsigned. apply Z.mod_small.
  change (2 ^ 32) with 4294967296 in H.
  destruct dm; cbn; lia.
Qed.

Lemma to_s64_id x : - 2 ^ 63 <= x <= KTIME_MAX -> to_s64 x = x.
Proof.
  unfold KTIME_MAX, to_s64, to_signed.
  change (2 ^ (64 - 1)) with 9223372036854775808.
  change (2 ^ 64) with 18446744073709551616.
  change (2 ^ 63) with 9223372036854775808.
  intros H.
  destruct (Z.neg_nonneg_cases x) as [Hneg | Hpos].
  - replace (x mod 18446744073709551616) with (x + 18446744073709551616).
    + destruct (Z.ltb_spec (x + 18446744073709551616) 9223372036854775808); lia.
    + apply Z.mod_unique with (q := -1); lia.
  - rewrite Z.mod_small by lia.
    destruct (Z.ltb_spec x 9223372036854775808); lia.
Qed.

Lemma ktime_add_ns_exact kt ns :
  0 <= kt -> 0 <= ns -> kt + ns <= KTIME_MAX -> ktime_add_ns kt ns = kt + ns.
Proof.
  intros H1 H2 H3. unfold ktime_add_ns. apply to_s64_id.
  change (2 ^ 63) with 9223372036854775808. lia.
Qed.

Lemma clamp_period_range v : MIN_PERIOD <= clamp_period v <= MAX_PERIOD.
Proof.
  unfold clamp_period, MIN_PERIOD, MAX_PERIOD.
  destruct (Z.ltb_spec v 1000000); [lia |].
  destruct (Z.gtb_spec v 2000000); lia.
Qed.

Lemma clamp_period_max_min v :
  clamp_period v = Z.max MIN_PERIOD (Z.min v MAX_PERIOD).
Proof.
  unfold clamp_period, MIN_PERIOD, MAX_PERIOD.
  destruct (Z.ltb_spec v 1000000); [lia |].
  destruct (Z.gtb_spec v 2000000); lia.
Qed.

Lemma period_after_set v s :
  period_ns (atomic_set (clamp_period v) s) = clamp_period v.
Proof.
  cbn. apply to_int32_id.
  pose proof (clamp_period_range v) as H.
  unfold MIN_PERIOD, MAX_PERIOD in H. change (2 ^ 31) with 2147483648. lia.
Qed.

(** ** The flags word *)

Lemma test_set_bit n m w :
  0 <= n -> test_bit m (set_bit n w) = test_bit m w || (n =? m).
Proof.
  intros Hn. unfold test_bit, set_bit.
  rewrite Z.lor_spec, Z.shiftl_1_l, Z.pow2_bits_eqb by lia. reflexivity.
Qed.

Lemma test_clear_bit n m w :
  0 <= n -> test_bit m (clear_bit n w) = test_bit m w && negb (n =? m).
Proof.
  intros Hn. unfold test_bit, clear_bit.
  rewrite Z.ldiff_spec, Z.shiftl_1_l, Z.pow2_bits_eqb by lia. reflexivity.
Qed.

Lemma test_change_bit n m w :
  0 <= n -> test_bit m (change_bit n w) = xorb (test_bit m w) (n =? m).
Proof.
  intros Hn. unfold test_bit, change_bit.
  rewrite Z.lxor_spec, Z.shiftl_1_l, Z.pow2_bits_eqb by lia. reflexivity.
Qed.

Lemma test_assign_bit n m b w :
  0 <= n ->
  test_bit m (assign_bit n b w) = if n =? m then b else test_bit m w.
Proof.
  intros Hn. unfold assign_bit.
  destruct b; rewrite ?test_set_bit, ?test_clear_bit by lia;
    destruct (n =? m); cbn; rewrite ?orb_true_r, ?orb_false_r,
      ?andb_true_r, ?andb_false_r; reflexivity.
Qed.

(** Reduces the tests of the four flags after the updates the driver makes. *)
Ltac flag_bits :=
  unfold enabled, inverted, phase_active, opened in *;
  cbn [flags with_flags gpiod_set_value hrtimer_add_expires_ns with_times
       atomic_set] in *;
  rewrite ?test_set_bit, ?test_clear_bit, ?test_change_bit, ?test_assign_bit
    by (unfold SERVO_ENABLED, SERVO_INVERTED, SERVO_ACTIVE, SERVO_OPEN; lia);
  unfold SERVO_ENABLED, SERVO_INVERTED, SERVO_ACTIVE, SERVO_OPEN in *;
  cbn [Z.eqb Pos.eqb negb] in *;
  rewrite ?orb_false_r, ?orb_true_r, ?andb_true_r, ?andb_false_r,
    ?xorb_false_r, ?xorb_true_r.

(** ** The timer callback *)

Lemma servo_cb_disabled dm s :
  enabled s = false -> servo_cb dm s = hrtimer_add_expires_ns SERVO_PERIOD s.
Proof. unfold enabled, servo_cb. intros ->. reflexivity. Qed.

Lemma servo_cb_expiry dm s :
  timer_expires (servo_cb dm s)
  = ktime_add_ns (timer_expires s) (armed_duration dm s).
Proof.
  unfold servo_cb, armed_duration, enabled, phase_active.
  destruct (test_bit SERVO_ENABLED (flags s)); [| reflexivity].
  destruct (test_bit SERVO_ACTIVE (flags s)); reflexivity.
Qed.

Lemma servo_cb_keeps_control dm s :
  enabled (servo_cb dm s) = enabled s
  /\ inverted (servo_cb dm s) = inverted s
  /\ opened (servo_cb dm s) = opened s
  /\ period_ns (servo_cb dm s) = period_ns s
  /\ idx (servo_cb dm s) = idx s.
Proof.
  unfold servo_cb.
  destruct (test_bit SERVO_ENABLED (flags s)) eqn:He;
    [destruct (test_bit SERVO_ACTIVE (flags s)) eqn:Ha |];
    cbn [period_ns idx hrtimer_add_expires_ns with_times with_flags
         gpiod_set_value];
    repeat split; flag_bits; reflexivity.
Qed.

Lemma servo_cb_inv dm s : servo_inv s -> servo_inv (servo_cb dm s).
Proof.
  unfold servo_inv. intros H.
  destruct (servo_cb_keeps_control dm s) as (_ & _ & _ & -> & _). exact H.
Qed.

(** ** Width writes leave the timing fields alone *)

Lemma servo_write_frame s ubuf len stale :
  let s' := snd (servo_write s ubuf len stale) in
  flags s' = flags s /\ t_switch s' = t_switch s /\ t_next s' = t_next s
  /\ timer_expires s' = timer_expires s /\ gpio s' = gpio s.
Proof.
  unfold servo_write.
  destruct (servo_write_kbuf ubuf len stale) as [m |]; [| cbn; tauto].
  destruct (sscanf_d _); cbn; tauto.
Qed.

Lemma servo_write_inv s ubuf len stale :
  servo_inv s -> servo_inv (snd (servo_write s ubuf len stale)).
Proof.
  unfold servo_write, servo_inv. intros H.
  destruct (servo_write_kbuf ubuf len stale) as [m |]; [| exact H].
  destruct (sscanf_d _); [| exact H].
  cbn [snd]. rewrite period_after_set. apply clamp_period_range.
Qed.

(** ** The ioctl commands *)

Lemma servo_ioctl_WV dm s arg :
  servo_ioctl dm s (SERVO_WV dm) arg
  = match arg with
    | None => (-3, s, None)
    | Some u => (0, atomic_set (clamp_period (to_uint32 u)) s, arg)
    end.
Proof. destruct dm, arg; reflexivity. Qed.

Lemma servo_ioctl_RV dm s arg :
  servo_ioctl dm s (SERVO_RV dm) arg
  = match arg with
    | None => (-4, s, None)
    | Some _ => (0, s, Some (to_uint32 (atomic_read s)))
    end.
Proof. destruct dm, arg; reflexivity. Qed.

Lemma servo_ioctl_ENB dm s arg :
  servo_ioctl dm s (SERVO_ENB dm) arg
  = (0, with_flags (set_bit SERVO_ENABLED (clear_bit SERVO_ACTIVE (flags s))) s,
     arg).
Proof. destruct dm; reflexivity. Qed.

Lemma read_width_eq dm s : read_width dm s = Some (to_uint32 (period_ns s)).
Proof. unfold read_width. rewrite servo_ioctl_RV. reflexivity. Qed.

Lemma apply_width_write_frame dm s w :
  let s' := apply_width_write dm s w in
  flags s' = flags s /\ t_switch s' = t_switch s /\ t_next s' = t_next s
  /\ timer_expires s' = timer_expires s /\ gpio s' = gpio s.
Proof.
  destruct w as [arg | ubuf len stale]; cbn [apply_width_write].
  - rewrite servo_ioctl_WV. destruct arg; cbn; tauto.
  - apply servo_write_frame.
Qed.

Lemma apply_width_write_inv dm s w :
  servo_inv s -> servo_inv (apply_width_write dm s w).
Proof.
  destruct w as [arg | ubuf len stale]; cbn [apply_width_write]; intros H.
  - rewrite servo_ioctl_WV. destruct arg; cbn [fst snd]; [| exact H].
    unfold servo_inv. rewrite period_after_set. apply clamp_period_range.
  - apply servo_write_inv, H.
Qed.

Lemma width_writes_frame dm ws : forall s,
  let s' := width_writes dm ws s in
  flags s' = flags s /\ t_switch s' = t_switch s /\ t_next s' = t_next s
  /\ timer_expires s' = timer_expires s /\ gpio s' = gpio s.
Proof.
  induction ws as [| w ws IH]; intros s.
  - cbn. tauto.
  - change (width_writes dm (w :: ws) s)
      with (width_writes dm ws (apply_width_write dm s w)).
    destruct (IH (apply_width_write dm s w)) as (H1 & H2 & H3 & H4 & H5).
    destruct (apply_width_write_frame dm s w) as (G1 & G2 & G3 & G4 & G5).
    cbv zeta. rewrite H1, H2, H3, H4, H5. tauto.
Qed.

Lemma width_writes_inv dm ws : forall s,
  servo_inv s -> servo_inv (width_writes dm ws s).
Proof.
  induction ws as [| w ws IH]; intros s H; [exact H |].
  change (width_writes dm (w :: ws) s)
    with (width_writes dm ws (apply_width_write dm s w)).
  apply IH, apply_width_write_inv, H.
Qed.

Lemma servo_ioctl_inv dm s cmd arg :
  servo_inv s -> servo_inv (snd (fst (servo_ioctl dm s cmd arg))).
Proof.
  unfold servo_inv. intros H. unfold servo_ioctl.
  repeat match goal with
         | |- context [cmd =? ?c] => destruct (cmd =? c)
         end;
    try destruct arg; cbn [fst snd]; try exact H.
  rewrite period_after_set. apply clamp_period_range.
Qed.

(** The pulse width of a channel stays between 1,000,000 and 2,000,000
    from its setup on. *)
Lemma reachable_inv dm s : reachable dm s -> servo_inv s.
Proof.
  induction 1 as [now i sw0 nx0 | s s' _ IH Hstep].
  - unfold servo_inv, servo_setup. cbn [period_ns].
    rewrite to_int32_id; unfold MIN_PERIOD, MAX_PERIOD;
      change (2 ^ 31) with 2147483648; lia.
  - destruct Hstep.
    + apply servo_cb_inv, IH.
    + apply servo_ioctl_inv, IH.
    + apply servo_write_inv, IH.
    + exact IH.
    + exact IH.
Qed.

Lemma sample_idle_reachable dm : reachable dm sample_idle.
Proof.
  pose (s0 := servo_setup 0 0 0 0).
  pose (s1 := snd (fst (servo_ioctl dm s0 (SERVO_WV dm) (Some 1500000)))).
  pose (s2 := snd (fst (servo_ioctl dm s1 (SERVO_ENB dm) None))).
  assert (E : sample_idle = s2) by (destruct dm; reflexivity).
  rewrite E. unfold s2, s1, s0.
  eapply reach_step; [| apply step_ioctl].
  eapply reach_step; [| apply step_ioctl].
  apply reach_setup.
Qed.

(** ** Frames *)

Lemma servo_cb_pulse_start dm s :
  servo_inv s -> enabled s = true -> phase_active s = false ->
  servo_cb dm s
  = mkServo (negb (inverted s) :: gpio s)
            (ktime_add_ns (timer_expires s) (period_ns s))
            (period_ns s) (set_bit SERVO_ACTIVE (flags s))
            (period_ns s) (SERVO_PERIOD - period_ns s) (idx s).
Proof.
  unfold servo_inv, enabled, phase_active, inverted, servo_cb,
    MIN_PERIOD, MAX_PERIOD. intros Hinv -> ->.
  cbn [gpiod_set_value with_flags with_times hrtimer_add_expires_ns atomic_read
       flags period_ns t_switch t_next gpio timer_expires idx].
  rewrite (to_ulong_id dm (period_ns s)) by (change (2 ^ 32) with 4294967296; lia).
  rewrite to_ulong_id
    by (unfold SERVO_PERIOD; change (2 ^ 32) with 4294967296; lia).
  reflexivity.
Qed.

Lemma servo_cb_pulse_end dm s :
  enabled s = true -> phase_active s = true ->
  servo_cb dm s
  = mkServo (inverted s :: gpio s)
            (ktime_add_ns (timer_expires s) (t_next s))
            (period_ns s) (clear_bit SERVO_ACTIVE (flags s))
            (t_switch s) (t_next s) (idx s).
Proof.
  unfold enabled, phase_active, inverted, servo_cb. intros -> ->. reflexivity.
Qed.

(** C1. In a frame that begins with an IDLE to PULSE_HIGH firing, the low
    phase armed at the end of the pulse lasts [SERVO_PERIOD - t_switch],
    with [t_switch] the one read of [period_ns] made when the pulse began;
    the two phases add up to 20,000,000 ns whatever width writes happen
    in between. *)
Theorem frame_phases_sum_to_period dm s ws :
  servo_inv s -> enabled s = true -> phase_active s = false ->
  0 <= timer_expires s <= KTIME_MAX - SERVO_PERIOD ->
  let s1 := servo_cb dm s in
  let s2 := servo_cb dm (width_writes dm ws s1) in
  let pulse := timer_expires s1 - timer_expires s in
  let low := timer_expires s2 - timer_expires s1 in
  t_switch s1 = atomic_read s
  /\ t_next s1 = SERVO_PERIOD - t_switch s1
  /\ pulse = t_switch s1
  /\ low = SERVO_PERIOD - atomic_read s
  /\ pulse + low = 20000000
  /\ phase_active s1 = true /\ phase_active s2 = false.
Proof.
  intros Hinv Hen Hidle Hexp s1 s2 pulse low.
  assert (Hs1 := servo_cb_pulse_start dm s Hinv Hen Hidle). fold s1 in Hs1.
  destruct (width_writes_frame dm ws s1) as (Hf & Hsw & Hnx & He & Hg).
  assert (Hen1 : enabled (width_writes dm ws s1) = true).
  { unfold enabled. rewrite Hf, Hs1. revert Hen. flag_bits. intros ->. reflexivity. }
  assert (Hact1 : phase_active (width_writes dm ws s1) = true).
  { unfold phase_active. rewrite Hf, Hs1. flag_bits. reflexivity. }
  assert (Hs2 := servo_cb_pulse_end dm _ Hen1 Hact1). fold s2 in Hs2.
  unfold servo_inv, MIN_PERIOD, MAX_PERIOD in Hinv.
  unfold KTIME_MAX, SERVO_PERIOD in Hexp.
  assert (Hp : pulse = period_ns s).
  { unfold pulse. rewrite Hs1. cbn [timer_expires].
    rewrite ktime_add_ns_exact by (unfold KTIME_MAX; lia). lia. }
  assert (Hl : low = SERVO_PERIOD - period_ns s).
  { unfold low. rewrite Hs2. cbn [timer_expires]. rewrite He, Hnx, Hs1.
    cbn [timer_expires t_next].
    rewrite (ktime_add_ns_exact (timer_expires s)) by (unfold KTIME_MAX; lia).
    rewrite ktime_add_ns_exact by (unfold KTIME_MAX, SERVO_PERIOD; lia). lia. }
  unfold atomic_read.
  repeat split.
  - rewrite Hs1. reflexivity.
  - rewrite Hs1. reflexivity.
  - rewrite Hp, Hs1. reflexivity.
  - exact Hl.
  - rewrite Hp, Hl. unfold SERVO_PERIOD. lia.
  - unfold phase_active. rewrite Hs1. flag_bits. reflexivity.
  - unfold phase_active. rewrite Hs2. flag_bits. reflexivity.
Qed.

Lemma frame_phases_sum_to_period_witness :
  let s1 := servo_cb ILP32 sample_idle in
  let s2 :=
    servo_cb ILP32
      (width_writes ILP32
         [width_ioctl (Some 1200000);
          width_text (text_of "1900000") 7 stale_nul] s1) in
  t_switch s1 = 1500000
  /\ (timer_expires s1 - timer_expires sample_idle)
     + (timer_expires s2 - timer_expires s1) = 20000000.
Proof.
  pose proof (frame_phases_sum_to_period ILP32 sample_idle
                [width_ioctl (Some 1200000);
                 width_text (text_of "1900000") 7 stale_nul]) as H.
  destruct H as (H1 & _ & _ & _ & H5 & _).
  - unfold servo_inv, MIN_PERIOD, MAX_PERIOD. cbn. lia.
  - reflexivity.
  - reflexivity.
  - unfold KTIME_MAX, SERVO_PERIOD. cbn. lia.
  - split; [exact H1 | exact H5].
Defined.

(** C4. A firing while the channel is disabled changes neither the output
    line nor the phase, [t_switch] or [t_next], and re-arms the timer
    20,000,000 ns after the previous deadline. *)
Theorem disabled_firing_rearms_frame dm s :
  enabled s = false ->
  0 <= timer_expires s <= KTIME_MAX - SERVO_PERIOD ->
  let s' := servo_cb dm s in
  gpio s' = gpio s
  /\ phase_active s' = phase_active s
  /\ flags s' = flags s
  /\ t_switch s' = t_switch s
  /\ t_next s' = t_next s
  /\ period_ns s' = period_ns s
  /\ timer_expires s' = timer_expires s + 20000000.
Proof.
  intros Hdis Hexp s'. unfold s'. rewrite servo_cb_disabled by exact Hdis.
  unfold phase_active. cbn.
  repeat split.
  unfold KTIME_MAX, SERVO_PERIOD in *.
  apply ktime_add_ns_exact; unfold KTIME_MAX; lia.
Qed.

Lemma disabled_firing_rearms_frame_witness :
  timer_expires (servo_cb LP64 sample_disabled) = 1000000 + 20000000
  /\ gpio (servo_cb LP64 sample_disabled) = [true].
Proof.
  pose proof (disabled_firing_rearms_frame LP64 sample_disabled) as H.
  destruct H as (H1 & _ & _ & _ & _ & _ & H7).
  - reflexivity.
  - unfold KTIME_MAX, SERVO_PERIOD. cbn. lia.
  - split; [exact H7 | exact H1].
Defined.

(** ** Re-arming *)

Lemma hrtimer_run_due dm now s :
  timer_expires s <= now -> hrtimer_run dm now s = Some (servo_cb dm s).
Proof.
  intros H. unfold hrtimer_run.
  destruct (Z.leb_spec (timer_expires s) now); [reflexivity | lia].
Qed.

Lemma armed_duration_cases dm s :
  armed_duration dm s = to_ulong dm (atomic_read s)
  \/ armed_duration dm s = t_next s
  \/ armed_duration dm s = SERVO_PERIOD.
Proof.
  unfold armed_duration. destruct (enabled s), (phase_active s); auto.
Qed.

Lemma servo_channel_turn_next p1 p2 lat1 lat2 st :
  0 <= p1 ->
  exists sw st',
    servo_channel_turn p1 p2 lat1 lat2 st = loop_next sw st'
    /\ timespec_ns sw = timespec_ns (th_next st) + p2
    /\ timespec_ns (th_next st') = timespec_ns (th_next st) + 20000000
    /\ clock st'
       = Z.max (Z.max (clock st) (timespec_ns sw) + lat1)
               (timespec_ns (th_next st')) + lat2.
Proof.
  intros Hp1. unfold servo_channel_turn.
  destruct (Z.ltb_spec p1 0); [lia |].
  eexists _, _. split; [reflexivity |].
  unfold timespec_ns, clock_nanosleep_abs, NSEC_PER_SEC.
  cbn [tv_sec tv_nsec th_next clock].
  pose proof (Z.quot_rem' (tv_nsec (th_next st) + p2) 1000000000).
  pose proof (Z.quot_rem' (tv_nsec (th_next st) + 20000000) 1000000000).
  repeat split; lia.
Qed.

(** C2. Every firing of the timer callback arms the next deadline at the
    previous expiry plus the chosen duration, whatever the time at which
    the callback ran; the thread variant advances [t_switch] and [t_next]
    from the previous absolute deadline and sleeps until these absolute
    times. *)
Theorem rearm_from_previous_deadline :
  (forall dm s now1 now2,
      timer_expires s <= now1 -> timer_expires s <= now2 ->
      exists s',
        hrtimer_run dm now1 s = Some s'
        /\ hrtimer_run dm now2 s = Some s'
        /\ timer_expires s'
           = ktime_add_ns (timer_expires s) (armed_duration dm s)
        /\ (enabled s = false -> armed_duration dm s = SERVO_PERIOD)
        /\ (enabled s = true -> phase_active s = true ->
            armed_duration dm s = t_next s)
        /\ (enabled s = true -> phase_active s = false ->
            armed_duration dm s = t_switch s')
        /\ (0 <= timer_expires s -> 0 <= armed_duration dm s ->
            timer_expires s + armed_duration dm s <= KTIME_MAX ->
            timer_expires s' = timer_expires s + armed_duration dm s))
  /\ (forall p1 p2 lat1 lat2 st,
         0 <= p1 -> 0 <= p2 <= 1000000000 ->
         0 <= lat1 -> 0 <= lat2 ->
         0 <= tv_nsec (th_next st) < NSEC_PER_SEC ->
         exists sw st',
           servo_channel_turn p1 p2 lat1 lat2 st = loop_next sw st'
           /\ timespec_ns sw = timespec_ns (th_next st) + p2
           /\ timespec_ns (th_next st') = timespec_ns (th_next st) + 20000000
           /\ 0 <= tv_nsec (th_next st') < NSEC_PER_SEC
           /\ timespec_ns (th_next st') <= clock st').
Proof.
  split.
  - intros dm s now1 now2 H1 H2. exists (servo_cb dm s).
    rewrite !hrtimer_run_due by assumption.
    split; [reflexivity |]. split; [reflexivity |].
    split; [apply servo_cb_expiry |].
    unfold armed_duration.
    split; [intros ->; reflexivity |].
    split; [intros -> ->; reflexivity |].
    split.
    + intros He Ha. rewrite He, Ha.
      unfold servo_cb. unfold enabled in He. unfold phase_active in Ha.
      rewrite He, Ha. reflexivity.
    + intros Hlo Hd Hhi. rewrite servo_cb_expiry.
      apply ktime_add_ns_exact; assumption.
  - intros p1 p2 lat1 lat2 st Hp1 Hp2 Hl1 Hl2 Hn.
    destruct (servo_channel_turn_next p1 p2 lat1 lat2 st Hp1)
      as (sw & st' & Heq & Hsw & Hnx & Hclk).
    exists sw, st'. repeat split; try assumption.
    + unfold servo_channel_turn in Heq.
      destruct (Z.ltb_spec p1 0); [lia |]. inversion Heq; subst. cbn.
      apply Z.rem_nonneg; unfold NSEC_PER_SEC in Hn; lia.
    + unfold servo_channel_turn in Heq.
      destruct (Z.ltb_spec p1 0); [lia |]. inversion Heq; subst. cbn.
      unfold NSEC_PER_SEC in *.
      apply Z.rem_bound_pos; lia.
    + rewrite Hclk. lia.
Qed.

Lemma rearm_from_previous_deadline_witness :
  hrtimer_run ILP32 2500007 sample_pulse = hrtimer_run ILP32 9999999 sample_pulse
  /\ (exists sw st',
         servo_channel_turn 1500000 1500000 40 60
           (mkThread 4 (mkTimespec 5 990000000) 5990000000) = loop_next sw st'
         /\ timespec_ns (th_next st') = 5990000000 + 20000000).
Proof.
  destruct rearm_from_previous_deadline as [Hcb Hth]. split.
  - destruct (Hcb ILP32 sample_pulse 2500007 9999999)
      as (s' & -> & -> & _).
    + cbn. lia.
    + cbn. lia.
    + reflexivity.
  - destruct (Hth 1500000 1500000 40 60
                (mkThread 4 (mkTimespec 5 990000000) 5990000000))
      as (sw & st' & Heq & _ & Hnx & _).
    + lia.
    + lia.
    + lia.
    + lia.
    + unfold NSEC_PER_SEC. cbn. lia.
    + exists sw, st'. split; [exact Heq | exact Hnx].
Defined.

(** ** Decimal text *)

Lemma digit_char_spec d :
  0 <= d < 10 ->
  isdigit (digit_char d) = true
  /\ digit_value (digit_char d) = d
  /\ isspace (digit_char d) = false
  /\ Ascii.eqb (digit_char d) minus_sign = false
  /\ Ascii.eqb (digit_char d) NUL = false.
Proof.
  intros H.
  assert (d = 0 \/ d = 1 \/ d = 2 \/ d = 3 \/ d = 4 \/ d = 5 \/ d = 6
          \/ d = 7 \/ d = 8 \/ d = 9) as Hd by lia.
  repeat (destruct Hd as [-> | Hd]; [vm_compute; tauto |]).
  subst d. vm_compute. tauto.
Qed.

Lemma utoa_aux_digits fuel : forall n acc,
  0 <= n -> Forall is_digit_char acc -> Forall is_digit_char (utoa_aux fuel n acc).
Proof.
  induction fuel as [| fuel IH]; intros n acc Hn Hacc; cbn [utoa_aux].
  - exact Hacc.
  - assert (Hd : Forall is_digit_char (digit_char (n mod 10) :: acc)).
    { constructor; [| exact Hacc].
      apply digit_char_spec, Z.mod_pos_bound. lia. }
    destruct (n <? 10); [exact Hd |].
    apply IH; [apply Z.div_pos; lia | exact Hd].
Qed.

Lemma utoa_aux_nonempty fuel : forall n acc,
  acc <> [] -> utoa_aux fuel n acc <> [].
Proof.
  induction fuel as [| fuel IH]; intros n acc Hacc; cbn [utoa_aux].
  - exact Hacc.
  - destruct (n <? 10); [discriminate |]. apply IH. discriminate.
Qed.

Lemma utoa_aux_length fuel : forall n acc k,
  0 <= n < 10 ^ Z.of_nat k -> (1 <= k)%nat ->
  (length (utoa_aux fuel n acc) <= k + length acc)%nat.
Proof.
  induction fuel as [| fuel IH]; intros n acc k Hn Hk; cbn [utoa_aux].
  - lia.
  - destruct (Z.ltb_spec n 10) as [Hlt | Hge]; [cbn; lia |].
    destruct k as [| [| k]]; [lia | cbn in Hn; lia |].
    etransitivity.
    + apply (IH (n / 10) _ (S k)); [| lia].
      split; [apply Z.div_pos; lia |].
      apply Z.div_lt_upper_bound; [lia |].
      replace (Z.of_nat (S (S k))) with (Z.succ (Z.of_nat (S k))) in Hn by lia.
      rewrite Z.pow_succ_r in Hn by lia. lia.
    + cbn [length]. lia.
Qed.

Lemma parse_integer_utoa_aux fuel : forall n acc,
  0 <= n < 10 ^ Z.of_nat fuel ->
  parse_integer (utoa_aux fuel n acc) 0 = parse_integer acc n.
Proof.
  induction fuel as [| fuel IH]; intros n acc Hn; cbn [utoa_aux].
  - cbn in Hn. replace n with 0 by lia. reflexivity.
  - assert (Hm : 0 <= n mod 10 < 10) by (apply Z.mod_pos_bound; lia).
    destruct (digit_char_spec (n mod 10) Hm) as (Hdig & Hval & _).
    destruct (Z.ltb_spec n 10) as [Hlt | Hge].
    + cbn [parse_integer]. rewrite Hdig, Hval.
      rewrite Z.mod_small by lia. reflexivity.
    + rewrite IH.
      * cbn [parse_integer]. rewrite Hdig, Hval. f_equal.
        pose proof (Z.div_mod n 10). lia.
      * split; [apply Z.div_pos; lia |].
        apply Z.div_lt_upper_bound; [lia |].
        replace (Z.of_nat (S fuel)) with (Z.succ (Z.of_nat fuel)) in Hn by lia.
        rewrite Z.pow_succ_r in Hn by lia. lia.
Qed.

Lemma parse_integer_app ds : forall rest a,
  Forall is_digit_char ds ->
  parse_integer (ds ++ rest) a = parse_integer rest (parse_integer ds a).
Proof.
  induction ds as [| c ds IH]; intros rest a Hds; [reflexivity |].
  inversion Hds as [| ? ? Hc Hds']; subst. cbn [app parse_integer].
  unfold is_digit_char in Hc. rewrite Hc. apply IH, Hds'.
Qed.

Lemma utoa_digits n : 0 <= n -> Forall is_digit_char (utoa n).
Proof. intros H. apply utoa_aux_digits; [exact H | constructor]. Qed.

Lemma utoa_head n :
  exists c tl, utoa n = c :: tl.
Proof.
  unfold utoa. cbn [utoa_aux].
  destruct (n <? 10); [eauto |].
  destruct (utoa_aux 19 (n / 10) [digit_char (n mod 10)]) as [| c tl] eqn:E;
    [| eauto].
  exfalso. revert E. apply utoa_aux_nonempty. discriminate.
Qed.

Lemma parse_integer_utoa n rest :
  0 <= n < 10 ^ 20 ->
  isdigit (hd NUL rest) = false ->
  parse_integer (utoa n ++ rest) 0 = n.
Proof.
  intros Hn Hrest.
  rewrite parse_integer_app by (apply utoa_digits; lia).
  unfold utoa. rewrite parse_integer_utoa_aux by exact Hn. cbn [parse_integer].
  destruct rest as [| c rest]; [reflexivity |].
  cbn in Hrest. cbn [parse_integer]. rewrite Hrest. reflexivity.
Qed.

Lemma utoa_length n k :
  0 <= n < 10 ^ Z.of_nat k -> (1 <= k)%nat -> (length (utoa n) <= k)%nat.
Proof.
  intros Hn Hk. pose proof (utoa_aux_length 20 n [] k Hn Hk) as H.
  cbn [length] in H. unfold utoa. lia.
Qed.

(** What [sscanf] makes of "v\n" and of "-m\n", whatever follows. *)
Lemma sscanf_d_decimal v tail :
  0 <= v < 10 ^ 20 ->
  sscanf_d (utoa v ++ newline :: tail) = Some (to_int32 v).
Proof.
  intros Hv. unfold sscanf_d.
  destruct (utoa_head v) as (c & tl & E).
  pose proof (utoa_digits v (proj1 Hv)) as Hd. rewrite E in Hd.
  inversion Hd as [| ? ? Hc _]; subst. unfold is_digit_char in Hc.
  assert (Hsp : isspace c = false).
  { unfold isdigit in Hc. unfold isspace.
    apply andb_true_iff in Hc as [H1 H2].
    apply Z.leb_le in H1. apply Z.leb_le in H2.
    destruct (Z.leb_spec 9 (char_code c)), (Z.leb_spec (char_code c) 13),
      (Z.eqb_spec (char_code c) 32), (Z.eqb_spec (char_code c) 160);
      cbn; lia. }
  assert (Hmi : Ascii.eqb c minus_sign = false).
  { apply Ascii.eqb_neq. intros ->. discriminate Hc. }
  rewrite E. cbn [app skip_spaces]. rewrite Hsp, Hmi, Hc.
  change (c :: tl ++ newline :: tail) with ((c :: tl) ++ newline :: tail).
  rewrite <- E, parse_integer_utoa by (exact Hv || reflexivity). reflexivity.
Qed.

Lemma sscanf_d_negative m tail :
  0 <= m < 10 ^ 20 ->
  sscanf_d (minus_sign :: utoa m ++ newline :: tail) = Some (to_int32 (- m)).
Proof.
  intros Hm. unfold sscanf_d. cbn [skip_spaces].
  change (isspace minus_sign) with false. cbv iota.
  change (Ascii.eqb minus_sign minus_sign) with true. cbv iota.
  destruct (utoa_head m) as (c & tl & E).
  pose proof (utoa_digits m (proj1 Hm)) as Hd. rewrite E in Hd.
  inversion Hd as [| ? ? Hc _]; subst. unfold is_digit_char in Hc.
  rewrite E. cbn [app]. rewrite Hc.
  change (c :: tl ++ newline :: tail) with ((c :: tl) ++ newline :: tail).
  rewrite <- E, parse_integer_utoa by (exact Hm || reflexivity). reflexivity.
Qed.

(** ** The kernel buffer of the textual write *)

Lemma map_nth_seq (l : list ascii) : forall n,
  (n <= length l)%nat ->
  map (fun j => nth j l NUL) (seq 0 n) = take n l.
Proof.
  induction l as [| x l IH]; intros n Hn.
  - cbn in Hn. replace n with 0%nat by lia. reflexivity.
  - destruct n as [| n]; [reflexivity |].
    cbn [seq map nth take]. f_equal.
    rewrite <- seq_shift, map_map. cbn [nth]. apply IH. cbn in Hn. lia.
Qed.

Lemma write_klen_min len : write_klen len = Nat.min len 15.
Proof. unfold write_klen. destruct (Nat.ltb_spec len 15); lia. Qed.

Lemma servo_write_kbuf_cells ubuf len stale m :
  servo_write_kbuf ubuf len stale = Some m ->
  (write_klen len <= length ubuf)%nat
  /\ forall j,
       m j = if Nat.eqb j (terminator_index len) then NUL
             else if Nat.ltb j (write_klen len) then nth j ubuf NUL
             else stale j.
Proof.
  unfold servo_write_kbuf, copy_from_user.
  destruct (Nat.leb_spec (write_klen len) (length ubuf)) as [Hle | Hgt];
    [| discriminate].
  intros [= <-]. split; [exact Hle |]. intros j. reflexivity.
Qed.

Lemma servo_write_kbuf_string ubuf len stale m :
  servo_write_kbuf ubuf len stale = Some m ->
  map m (seq 0 (terminator_index len + 1))
  = take (write_klen len) ubuf ++ [stale (write_klen len); NUL].
Proof.
  intros H. destruct (servo_write_kbuf_cells _ _ _ _ H) as [Hle Hm].
  unfold terminator_index in *.
  replace (write_klen len + 1 + 1)%nat with (write_klen len + 2)%nat by lia.
  rewrite seq_app, map_app. f_equal.
  - rewrite <- (map_nth_seq ubuf _ Hle). apply map_ext_in.
    intros j Hj. apply in_seq in Hj. rewrite Hm.
    destruct (Nat.eqb_spec j (write_klen len + 1)); [lia |].
    destruct (Nat.ltb_spec j (write_klen len)); [reflexivity | lia].
  - cbn [seq map]. rewrite !Hm. rewrite Nat.add_0_l.
    destruct (Nat.eqb_spec (write_klen len) (write_klen len + 1)); [lia |].
    destruct (Nat.ltb_spec (write_klen len) (write_klen len)); [lia |].
    replace (S (write_klen len)) with (write_klen len + 1)%nat by lia.
    rewrite Nat.eqb_refl. reflexivity.
Qed.

Lemma until_nul_app l r :
  Forall (fun c => Ascii.eqb c NUL = false) l ->
  until_nul (l ++ r) = l ++ until_nul r.
Proof.
  induction 1 as [| c l Hc _ IH]; [reflexivity |].
  cbn [app until_nul]. rewrite Hc, IH. reflexivity.
Qed.

Lemma digits_not_nul ds :
  Forall is_digit_char ds -> Forall (fun c => Ascii.eqb c NUL = false) ds.
Proof.
  induction 1 as [| c ds Hc _ IH]; constructor; [| exact IH].
  apply Ascii.eqb_neq. intros ->. discriminate Hc.
Qed.

(** A write of the whole text [t], at most 15 bytes long and free of
    NUL bytes, hands to [sscanf] the text followed by the byte the stack
    held behind it. *)
Lemma servo_write_whole_text s t stale :
  (length t <= 15)%nat ->
  Forall (fun c => Ascii.eqb c NUL = false) t ->
  servo_write s t (length t) stale
  = match sscanf_d (t ++ until_nul [stale (length t); NUL]) with
    | None => (Z.of_nat (length t), s)
    | Some v =>
        (Z.of_nat (length t), atomic_set (clamp_period (to_uint32 v)) s)
    end.
Proof.
  intros Hlen Hnn. unfold servo_write.
  assert (Hk : write_klen (length t) = length t)
    by (rewrite write_klen_min; lia).
  destruct (servo_write_kbuf t (length t) stale) as [m |] eqn:E.
  - unfold c_string. rewrite (servo_write_kbuf_string _ _ _ _ E), Hk.
    rewrite firstn_all, until_nul_app by exact Hnn. reflexivity.
  - unfold servo_write_kbuf, copy_from_user in E. rewrite Hk in E.
    rewrite Nat.leb_refl in E. discriminate E.
Qed.

Lemma to_uint32_to_int32 x : to_uint32 (to_int32 x) = to_uint32 x.
Proof.
  unfold to_uint32, to_int32, to_unsigned, to_signed.
  change (2 ^ (32 - 1)) with 2147483648. change (2 ^ 32) with 4294967296.
  destruct (x mod 4294967296 <? 2147483648).
  - apply Z.mod_mod. lia.
  - replace (x mod 4294967296 - 4294967296)
      with (x mod 4294967296 + (-1) * 4294967296) by lia.
    rewrite Z.mod_add by lia. apply Z.mod_mod. lia.
Qed.

Lemma decimal_text_not_nul v :
  0 <= v -> Forall (fun c => Ascii.eqb c NUL = false) (decimal_text v).
Proof.
  intros Hv. unfold decimal_text. apply Forall_app. split.
  - apply digits_not_nul, utoa_digits, Hv.
  - constructor; [reflexivity | constructor].
Qed.

(** The textual write of a non-negative decimal number of at most 14
    digits stores the number reduced modulo 2^32 and clamped. *)
Lemma servo_write_decimal s v stale :
  0 <= v < 10 ^ 14 ->
  servo_write s (decimal_text v) (length (decimal_text v)) stale
  = (Z.of_nat (length (decimal_text v)),
     atomic_set (clamp_period (to_uint32 v)) s).
Proof.
  intros Hv.
  rewrite servo_write_whole_text.
  - unfold decimal_text at 1. rewrite <- app_assoc. cbn [app].
    rewrite sscanf_d_decimal by (change (10 ^ 20) with (10 ^ 14 * 1000000); lia).
    rewrite to_uint32_to_int32. reflexivity.
  - unfold decimal_text. rewrite length_app. cbn [length].
    pose proof (utoa_length v 14 Hv). lia.
  - apply decimal_text_not_nul. lia.
Qed.

(** The textual write of "-m\n", [m] of at most 13 digits, stores [-m]
    reduced modulo 2^32 and clamped. *)
Lemma servo_write_negative s m stale :
  0 <= m < 10 ^ 13 ->
  servo_write s (negative_text m) (length (negative_text m)) stale
  = (Z.of_nat (length (negative_text m)),
     atomic_set (clamp_period (to_uint32 (- m))) s).
Proof.
  intros Hm.
  rewrite servo_write_whole_text.
  - unfold negative_text at 1. cbn [app]. rewrite <- app_assoc. cbn [app].
    rewrite sscanf_d_negative by (change (10 ^ 20) with (10 ^ 13 * 10000000); lia).
    rewrite to_uint32_to_int32. reflexivity.
  - unfold negative_text. cbn [length]. rewrite length_app. cbn [length].
    pose proof (utoa_length m 13 Hm). lia.
  - unfold negative_text. constructor; [reflexivity |].
    apply (decimal_text_not_nul m). lia.
Qed.

(** ** Width writes and reads *)

Lemma servo_read_text s len :
  servo_inv s -> (16 <= len)%nat ->
  servo_read s len 0 true
  = (Z.of_nat (length (decimal_text (period_ns s))),
     Z.of_nat (length (decimal_text (period_ns s))),
     Some (decimal_text (period_ns s))).
Proof.
  unfold servo_inv, MIN_PERIOD, MAX_PERIOD. intros Hinv Hlen.
  unfold servo_read, atomic_read.
  rewrite to_uint32_id by (change (2 ^ 32) with 4294967296; lia).
  change (0 >? 0) with false. cbv iota. fold (decimal_text (period_ns s)).
  assert (Hl : (length (decimal_text (period_ns s)) <= 8)%nat).
  { unfold decimal_text. rewrite length_app. cbn [length].
    assert (length (utoa (period_ns s)) <= 7)%nat; [| lia].
    apply utoa_length; [| lia].
    change (10 ^ Z.of_nat 7) with 10000000. lia. }
  destruct (Nat.ltb_spec len (length (decimal_text (period_ns s)))); [lia |].
  rewrite Z.add_0_l, !firstn_all2 by (rewrite ?firstn_all2; lia).
  reflexivity.
Qed.

(** C3, the claim at a text it does not hold for: "4294967296\n" is
    above the maximum, and the width read back is the minimum. *)
Lemma textual_write_wraps_counterexample :
  let v := 4294967296 in
  let text := decimal_text v in
  let s' := snd (servo_write sample_idle text (length text) stale_nul) in
  text = text_of "4294967296" ++ [newline]
  /\ v > 2000000
  /\ read_width ILP32 s' = Some 1000000
  /\ read_width ILP32 s' <> Some (Z.max 1000000 (Z.min v 2000000)).
Proof. vm_compute. repeat split; discriminate. Qed.

(** C3, as amended. For every 32-bit unsigned value [v], written through
    the ioctl [SERVO_WV] or as its decimal text followed by a newline, a
    subsequent width read returns [v] clamped to the range from
    1,000,000 to 2,000,000. *)
Theorem width_write_then_read_clamps dm s v stale :
  0 <= v < 2 ^ 32 ->
  let r1 := servo_ioctl dm s (SERVO_WV dm) (Some v) in
  let r2 := servo_write s (decimal_text v) (length (decimal_text v)) stale in
  let s1 := snd (fst r1) in
  let s2 := snd r2 in
  let clamped := Z.max 1000000 (Z.min v 2000000) in
  fst (fst r1) = 0
  /\ fst r2 = Z.of_nat (length (decimal_text v))
  /\ read_width dm s1 = Some clamped
  /\ read_width dm s2 = Some clamped
  /\ snd (servo_read s1 16 0 true) = Some (decimal_text clamped)
  /\ snd (servo_read s2 16 0 true) = Some (decimal_text clamped)
  /\ (1000000 <= v <= 2000000 -> clamped = v)
  /\ (v < 1000000 -> clamped = 1000000)
  /\ (v > 2000000 -> clamped = 2000000).
Proof.
  intros Hv r1 r2 s1 s2 clamped.
  assert (Hc : clamp_period v = clamped)
    by (rewrite clamp_period_max_min; reflexivity).
  assert (E1 : r1 = (0, atomic_set (clamp_period v) s, Some v)).
  { unfold r1. rewrite servo_ioctl_WV, to_uint32_id by exact Hv. reflexivity. }
  assert (E2 : r2 = (Z.of_nat (length (decimal_text v)),
                     atomic_set (clamp_period v) s)).
  { unfold r2. rewrite servo_write_decimal, to_uint32_id; [reflexivity | exact Hv |].
    change (2 ^ 32) with 4294967296 in Hv.
    change (10 ^ 14) with 100000000000000. lia. }
  assert (Hp : period_ns (atomic_set (clamp_period v) s) = clamped)
    by (rewrite period_after_set; exact Hc).
  assert (Hinv : servo_inv (atomic_set (clamp_period v) s)).
  { unfold servo_inv. rewrite period_after_set. apply clamp_period_range. }
  assert (Hr : read_width dm (atomic_set (clamp_period v) s) = Some clamped).
  { rewrite read_width_eq, Hp, to_uint32_id; [reflexivity |].
    change (2 ^ 32) with 4294967296. unfold clamped. lia. }
  unfold s1, s2. rewrite E1, E2. cbn [fst snd].
  rewrite servo_read_text, Hp by (exact Hinv || lia). cbn [snd].
  repeat split; try assumption; unfold clamped; lia.
Qed.

Lemma width_write_then_read_clamps_witness :
  read_width LP64
    (snd (servo_write sample_idle (decimal_text 3000000)
            (length (decimal_text 3000000)) stale_seven))
  = Some 2000000.
Proof.
  pose proof (width_write_then_read_clamps LP64 sample_idle 3000000 stale_seven)
    as H.
  destruct H as (_ & _ & _ & H4 & _).
  - change (2 ^ 32) with 4294967296. lia.
  - exact H4.
Defined.

(** C10, the claim at a text it does not hold for: "-4294967295\n"
    denotes a negative number, the value stored in the unsigned variable
    is 1, and the width becomes the minimum. *)
Lemma negative_text_wraps_counterexample :
  let text := negative_text 4294967295 in
  let s' := snd (servo_write sample_idle text (length text) stale_nul) in
  text = text_of "-4294967295" ++ [newline]
  /\ option_map to_uint32 (sscanf_d text) = Some 1
  /\ period_ns s' = 1000000
  /\ period_ns s' <> MAX_PERIOD.
Proof. vm_compute. repeat split; discriminate. Qed.

(** C10, as amended. For every textual write "-m\n" of a negative number
    down to -4,292,967,295, every negative [int] among them, the value
    stored in the unsigned 32-bit variable is [2^32 - m], which is above
    2,000,000, and the width becomes the maximum, not the minimum. *)
Theorem negative_text_stores_maximum s m stale :
  1 <= m <= 4292967295 ->
  let text := negative_text m in
  let r := servo_write s text (length text) stale in
  option_map to_uint32 (sscanf_d text) = Some (2 ^ 32 - m)
  /\ 2 ^ 32 - m > MAX_PERIOD
  /\ fst r = Z.of_nat (length text)
  /\ period_ns (snd r) = 2000000
  /\ period_ns (snd r) <> MIN_PERIOD.
Proof.
  intros Hm text r.
  assert (Hu : to_uint32 (- m) = 2 ^ 32 - m).
  { unfold to_uint32, to_unsigned. change (2 ^ 32) with 4294967296.
    symmetry. apply Z.mod_unique with (q := -1); lia. }
  assert (Hr : r = (Z.of_nat (length text),
                    atomic_set (clamp_period (to_uint32 (- m))) s)).
  { unfold r, text. apply servo_write_negative.
    change (10 ^ 13) with 10000000000000. lia. }
  assert (Hc : clamp_period (to_uint32 (- m)) = 2000000).
  { rewrite Hu. change (2 ^ 32) with 4294967296.
    unfold clamp_period, MIN_PERIOD, MAX_PERIOD.
    destruct (Z.ltb_spec (4294967296 - m) 1000000); [lia |].
    destruct (Z.gtb_spec (4294967296 - m) 2000000); [reflexivity | lia]. }
  split.
  - unfold text, negative_text.
    change [newline] with (newline :: @nil ascii).
    rewrite sscanf_d_negative
      by (change (10 ^ 20) with 100000000000000000000; lia).
    cbn [option_map]. rewrite to_uint32_to_int32, Hu. reflexivity.
  - rewrite Hr. cbn [fst snd]. rewrite period_after_set, Hc.
    change (2 ^ 32) with 4294967296. unfold MAX_PERIOD, MIN_PERIOD.
    repeat split; lia.
Qed.

Lemma negative_text_stores_maximum_witness :
  period_ns (snd (servo_write sample_idle (negative_text 5)
                    (length (negative_text 5)) stale_nul)) = 2000000.
Proof.
  pose proof (negative_text_stores_maximum sample_idle 5 stale_nul) as H.
  destruct H as (_ & _ & _ & H4 & _).
  - lia.
  - exact H4.
Defined.

(** ** Sessions *)

Lemma lookup_update (servos : list servo_data) minor s s' j :
  servos !! minor = Some s ->
  <[minor := s']> servos !! j = if Nat.eqb j minor then Some s' else servos !! j.
Proof.
  intros H. destruct (Nat.eqb_spec j minor) as [-> | Hne].
  - apply list_lookup_insert_eq. eapply lookup_lt_Some, H.
  - apply list_lookup_insert_ne. congruence.
Qed.

Lemma servo_open_busy (servos : list servo_data) minor filp s :
  servos !! minor = Some s -> opened s = true ->
  servo_open servos minor filp = Some (-1, servos, filp).
Proof. unfold servo_open, opened. intros -> ->. reflexivity. Qed.

Lemma servo_open_free (servos : list servo_data) minor filp s :
  servos !! minor = Some s -> opened s = false ->
  servo_open servos minor filp
  = Some (0, <[minor := with_flags (set_bit SERVO_OPEN (flags s)) s]> servos,
          mkFile (Some minor)).
Proof. unfold servo_open, opened. intros -> ->. reflexivity. Qed.

(** C8. One session per channel: an open on a channel whose open bit is
    set fails and changes nothing; an open on a channel whose open bit
    is clear succeeds and sets the bit, after which a further open
    fails; release clears the bit. *)
Theorem single_session_per_channel (servos : list servo_data) minor filp s :
  servos !! minor = Some s ->
  (opened s = true ->
   servo_open servos minor filp = Some (-1, servos, filp))
  /\ (opened s = false ->
      exists servos' s',
        servo_open servos minor filp = Some (0, servos', mkFile (Some minor))
        /\ servos' !! minor = Some s'
        /\ opened s' = true
        /\ enabled s' = enabled s /\ inverted s' = inverted s
        /\ phase_active s' = phase_active s /\ period_ns s' = period_ns s
        /\ (forall j, j <> minor -> servos' !! j = servos !! j)
        /\ (forall filp2,
               servo_open servos' minor filp2 = Some (-1, servos', filp2)))
  /\ (exists servos' s',
        servo_release servos minor filp = Some (0, servos', filp)
        /\ servos' !! minor = Some s'
        /\ opened s' = false
        /\ enabled s' = enabled s /\ inverted s' = inverted s
        /\ phase_active s' = phase_active s /\ period_ns s' = period_ns s
        /\ (forall j, j <> minor -> servos' !! j = servos !! j)
        /\ (forall filp2,
               servo_open servos' minor filp2
               = Some (0, <[minor := with_flags (set_bit SERVO_OPEN (flags s')) s']>
                            servos', mkFile (Some minor)))).
Proof.
  intros Hs. split; [| split].
  - intros Ho. apply (servo_open_busy _ _ _ _ Hs Ho).
  - intros Ho.
    set (s' := with_flags (set_bit SERVO_OPEN (flags s)) s).
    assert (Hs' : <[minor := s']> servos !! minor = Some s')
      by (rewrite (lookup_update _ _ _ _ _ Hs), Nat.eqb_refl; reflexivity).
    assert (Ho' : opened s' = true) by (unfold s'; flag_bits; reflexivity).
    exists (<[minor := s']> servos), s'.
    split; [apply (servo_open_free _ _ _ _ Hs Ho) |].
    split; [exact Hs' |]. split; [exact Ho' |].
    repeat split; try (unfold s'; flag_bits; reflexivity).
    + intros j Hj. apply list_lookup_insert_ne. congruence.
    + intros filp2. apply (servo_open_busy _ _ _ _ Hs' Ho').
  - set (s' := with_flags (clear_bit SERVO_OPEN (flags s)) s).
    assert (Hs' : <[minor := s']> servos !! minor = Some s')
      by (rewrite (lookup_update _ _ _ _ _ Hs), Nat.eqb_refl; reflexivity).
    assert (Ho' : opened s' = false) by (unfold s'; flag_bits; reflexivity).
    exists (<[minor := s']> servos), s'.
    split; [unfold servo_release; rewrite Hs; reflexivity |].
    split; [exact Hs' |]. split; [exact Ho' |].
    repeat split; try (unfold s'; flag_bits; reflexivity).
    + intros j Hj. apply list_lookup_insert_ne. congruence.
    + intros filp2. apply (servo_open_free _ _ _ _ Hs' Ho').
Qed.

Lemma single_session_per_channel_witness :
  servo_open [sample_idle; sample_pulse] 1 (mkFile None)
  = Some (-1, [sample_idle; sample_pulse], mkFile None).
Proof.
  pose proof (single_session_per_channel [sample_idle; sample_pulse] 1
                (mkFile None) sample_pulse) as H.
  destruct H as (H1 & _).
  - reflexivity.
  - apply H1. reflexivity.
Defined.

(** ** Who changes what *)

Lemma servo_ioctl_keeps_phase dm s cmd arg :
  cmd <> SERVO_ENB dm ->
  phase_active (snd (fst (servo_ioctl dm s cmd arg))) = phase_active s.
Proof.
  intros Hne. unfold servo_ioctl.
  destruct (Z.eqb_spec cmd (SERVO_ENB dm)); [contradiction |].
  repeat match goal with
         | |- context [cmd =? ?c] => destruct (cmd =? c)
         end;
    try destruct arg; cbn [fst snd]; flag_bits; reflexivity.
Qed.

Lemma servo_open_keeps_phase (servos : list servo_data) minor filp r servos' filp' j :
  servo_open servos minor filp = Some (r, servos', filp') ->
  phase_active <$> servos' !! j = phase_active <$> servos !! j.
Proof.
  unfold servo_open. destruct (servos !! minor) as [s |] eqn:Hs; [| discriminate].
  destruct (test_bit SERVO_OPEN (flags s)); intros [= <- <- <-]; [reflexivity |].
  rewrite (lookup_update _ _ _ _ _ Hs).
  destruct (Nat.eqb_spec j minor) as [-> | _]; [| reflexivity].
  rewrite Hs. cbn [fmap option_fmap option_map]. f_equal. flag_bits. reflexivity.
Qed.

Lemma servo_release_keeps_phase (servos : list servo_data) minor filp r servos' filp' j :
  servo_release servos minor filp = Some (r, servos', filp') ->
  phase_active <$> servos' !! j = phase_active <$> servos !! j.
Proof.
  unfold servo_release.
  destruct (servos !! minor) as [s |] eqn:Hs; [| discriminate].
  intros [= <- <- <-].
  rewrite (lookup_update _ _ _ _ _ Hs).
  destruct (Nat.eqb_spec j minor) as [-> | _]; [| reflexivity].
  rewrite Hs. cbn [fmap option_fmap option_map]. f_equal. flag_bits. reflexivity.
Qed.

(** C5, the claim at a state it does not hold for: the ioctl ENABLE,
    issued in the middle of a pulse, clears the phase bit. *)
Lemma enable_ioctl_clears_phase_counterexample :
  phase_active sample_pulse = true
  /\ phase_active
       (snd (fst (servo_ioctl ILP32 sample_pulse (SERVO_ENB ILP32) None)))
     = false.
Proof. vm_compute. split; reflexivity. Qed.

(** C5, as amended. The phase bit is changed only by the timer callback
    and by the ioctl ENABLE, which clears it: open, release, the textual
    write and every other ioctl command leave it as it is (the textual
    read has no access to the channel state), and the timer callback
    never changes the enabled flag, the inverted flag or the pulse
    width. *)
Theorem phase_changed_only_by_callback_and_enable dm s :
  (forall arg,
      phase_active (snd (fst (servo_ioctl dm s (SERVO_ENB dm) arg))) = false)
  /\ (forall cmd arg,
         cmd <> SERVO_ENB dm ->
         phase_active (snd (fst (servo_ioctl dm s cmd arg))) = phase_active s)
  /\ (forall ubuf len stale,
         phase_active (snd (servo_write s ubuf len stale)) = phase_active s)
  /\ (forall (servos : list servo_data) minor filp r servos' filp' j,
         servo_open servos minor filp = Some (r, servos', filp') ->
         phase_active <$> servos' !! j = phase_active <$> servos !! j)
  /\ (forall (servos : list servo_data) minor filp r servos' filp' j,
         servo_release servos minor filp = Some (r, servos', filp') ->
         phase_active <$> servos' !! j = phase_active <$> servos !! j)
  /\ enabled (servo_cb dm s) = enabled s
  /\ inverted (servo_cb dm s) = inverted s
  /\ period_ns (servo_cb dm s) = period_ns s.
Proof.
  split; [| split; [| split; [| split; [| split]]]].
  - intros arg. rewrite servo_ioctl_ENB. cbn [fst snd]. flag_bits. reflexivity.
  - intros cmd arg. apply servo_ioctl_keeps_phase.
  - intros ubuf len stale. unfold phase_active.
    destruct (servo_write_frame s ubuf len stale) as (-> & _). reflexivity.
  - intros servos minor filp r servos' filp' j. apply servo_open_keeps_phase.
  - intros servos minor filp r servos' filp' j. apply servo_release_keeps_phase.
  - destruct (servo_cb_keeps_control dm s) as (H1 & H2 & _ & H4 & _). tauto.
Qed.

Lemma phase_changed_only_by_callback_and_enable_witness :
  phase_active (snd (fst (servo_ioctl ILP32 sample_pulse (SERVO_DIS ILP32) None)))
  = true
  /\ phase_active <$> [sample_pulse] !! 0%nat = Some true.
Proof.
  destruct (phase_changed_only_by_callback_and_enable ILP32 sample_pulse)
    as (_ & H2 & _ & _ & H5 & _).
  split.
  - rewrite H2; [reflexivity |]. vm_compute. discriminate.
  - rewrite <- (H5 [sample_pulse] 0%nat (mkFile (Some 0%nat)) 0
                  [with_flags (clear_bit SERVO_OPEN (flags sample_pulse)) sample_pulse]
                  (mkFile (Some 0%nat)) 0%nat); reflexivity.
Defined.

(** ** The textual write: termination and unparseable input *)

(** C9. The terminating NUL of the textual write is stored one byte past
    the copied data, at index [min(len,15)+1] of the 16-byte buffer: for
    [len >= 15] that is index 16, one byte past the end of the buffer,
    and for [len < 15] the byte at index [min(len,15)] keeps what the
    stack held, and is part of the string handed to the parser. *)
Theorem terminator_one_past_copied_data ubuf len stale m :
  servo_write_kbuf ubuf len stale = Some m ->
  terminator_index len = (Nat.min len 15 + 1)%nat
  /\ m (terminator_index len) = NUL
  /\ (forall j, (j < Nat.min len 15)%nat -> m j = nth j ubuf NUL)
  /\ (forall j, (Nat.min len 15 <= j)%nat -> j <> terminator_index len ->
                m j = stale j)
  /\ ((15 <= len)%nat ->
      terminator_index len = 16%nat /\ terminator_index len = KBUF_SIZE)
  /\ ((len < 15)%nat ->
      (terminator_index len < KBUF_SIZE)%nat
      /\ m (Nat.min len 15) = stale (Nat.min len 15))
  /\ c_string (terminator_index len + 1) m
     = until_nul (take (Nat.min len 15) ubuf ++ [stale (Nat.min len 15); NUL]).
Proof.
  intros H. destruct (servo_write_kbuf_cells _ _ _ _ H) as [Hle Hm].
  pose proof (write_klen_min len) as Hk.
  assert (Ht : terminator_index len = (Nat.min len 15 + 1)%nat)
    by (unfold terminator_index; lia).
  split; [exact Ht |].
  split; [rewrite Hm, Nat.eqb_refl; reflexivity |].
  split.
  { intros j Hj. rewrite Hm.
    destruct (Nat.eqb_spec j (terminator_index len)); [lia |].
    destruct (Nat.ltb_spec j (write_klen len)); [reflexivity | lia]. }
  split.
  { intros j Hj Hne. rewrite Hm.
    destruct (Nat.eqb_spec j (terminator_index len)); [contradiction |].
    destruct (Nat.ltb_spec j (write_klen len)); [lia | reflexivity]. }
  split; [unfold KBUF_SIZE; lia |].
  split.
  { intros Hlt. split; [unfold KBUF_SIZE; lia |]. rewrite Hm.
    destruct (Nat.eqb_spec (Nat.min len 15) (terminator_index len)); [lia |].
    destruct (Nat.ltb_spec (Nat.min len 15) (write_klen len)); [lia | reflexivity]. }
  unfold c_string. rewrite (servo_write_kbuf_string _ _ _ _ H), Hk. reflexivity.
Qed.

Lemma terminator_one_past_copied_data_witness :
  terminator_index 15 = 16%nat
  /\ c_string (terminator_index 3 + 1)
       (store_byte (terminator_index 3) NUL
          (fun j => if Nat.ltb j (write_klen 3) then nth j (text_of "150") NUL
                    else stale_seven j))
     = text_of "1507".
Proof.
  split.
  - apply (terminator_one_past_copied_data (text_of "123456789012345") 15
             stale_seven
             (store_byte (terminator_index 15) NUL
                (fun j => if Nat.ltb j (write_klen 15)
                          then nth j (text_of "123456789012345") NUL
                          else stale_seven j))).
    + reflexivity.
    + lia.
  - pose proof (terminator_one_past_copied_data (text_of "150") 3 stale_seven
                  (store_byte (terminator_index 3) NUL
                     (fun j => if Nat.ltb j (write_klen 3)
                               then nth j (text_of "150") NUL
                               else stale_seven j)) eq_refl) as H.
    destruct H as (_ & _ & _ & _ & _ & _ & H7). rewrite H7. reflexivity.
Defined.

(** The byte left unwritten decides what a write without a final newline
    stores. *)
Lemma stale_byte_changes_width :
  period_ns (snd (servo_write sample_idle (text_of "1200000") 7 stale_nul))
  = 1200000
  /\ period_ns (snd (servo_write sample_idle (text_of "1200000") 7 stale_seven))
     = 2000000.
Proof. split; reflexivity. Qed.

(** C7. A textual write whose buffer does not parse as a decimal integer
    returns the byte count [min(len,15)], not an error, and leaves the
    stored pulse width as it was. *)
Theorem unparseable_write_keeps_width s ubuf len stale m :
  servo_write_kbuf ubuf len stale = Some m ->
  sscanf_d (c_string (terminator_index len + 1) m) = None ->
  servo_write s ubuf len stale = (Z.of_nat (Nat.min len 15), s)
  /\ 0 <= fst (servo_write s ubuf len stale)
  /\ period_ns (snd (servo_write s ubuf len stale)) = period_ns s.
Proof.
  intros Hm Hp.
  assert (E : servo_write s ubuf len stale = (Z.of_nat (Nat.min len 15), s)).
  { unfold servo_write. rewrite Hm, Hp, write_klen_min. reflexivity. }
  rewrite E. cbn [fst snd]. repeat split. lia.
Qed.

Lemma unparseable_write_keeps_width_witness :
  servo_write sample_idle (text_of "abc" ++ [newline]) 4 stale_seven
  = (4, sample_idle).
Proof.
  edestruct (unparseable_write_keeps_width sample_idle
               (text_of "abc" ++ [newline]) 4 stale_seven) as (H & _).
  - reflexivity.
  - reflexivity.
  - exact H.
Defined.

(** The same for every text that starts with a byte that is neither
    white space, a digit nor '-', whatever the stack held: the scenario
    "abc\n" of the specification is one. *)
Lemma servo_write_rejects_text s c t stale :
  isspace c = false -> isdigit c = false -> Ascii.eqb c minus_sign = false ->
  (length (c :: t) <= 15)%nat ->
  Forall (fun c => Ascii.eqb c NUL = false) (c :: t) ->
  servo_write s (c :: t) (length (c :: t)) stale
  = (Z.of_nat (length (c :: t)), s).
Proof.
  intros Hsp Hdig Hmin Hlen Hnn.
  rewrite servo_write_whole_text by assumption.
  unfold sscanf_d. cbn [app skip_spaces]. rewrite Hsp, Hmin, Hdig. reflexivity.
Qed.

Lemma servo_write_abc s stale :
  servo_write s (text_of "abc" ++ [newline]) 4 stale = (4, s).
Proof.
  apply (servo_write_rejects_text s _ (text_of "bc" ++ [newline]) stale);
    try reflexivity.
  - cbn. lia.
  - repeat constructor.
Qed.

(** ** Initialization failure *)

Lemma acquire_loop_fails_at env k : forall todo i,
  (i <= k < i + todo)%nat ->
  (forall j, (i <= j < k)%nat -> gpio_ok env j = true) ->
  gpio_ok env k = false ->
  acquire_loop env i todo
  = (flat_map setup_channel (seq i (k - i)) ++ [gpiod_get_index k], false).
Proof.
  induction todo as [| todo IH]; intros i Hik Hok Hk; [lia |].
  cbn [acquire_loop].
  destruct (Nat.eq_dec i k) as [-> | Hne].
  - rewrite Hk, Nat.sub_diag. reflexivity.
  - rewrite (Hok i) by lia.
    rewrite (IH (S i)) by (try assumption; try lia; intros j Hj; apply Hok; lia).
    replace (k - i)%nat with (S (k - S i)) by lia.
    reflexivity.
Qed.

Lemma servo_probe_gpio_failure env n k :
  dt_node_found env = true -> n_servos_prop env = Some n ->
  kmalloc_ok env = true ->
  (k < n)%nat ->
  (forall j, (j < k)%nat -> gpio_ok env j = true) ->
  gpio_ok env k = false ->
  servo_probe env
  = (-1, [kmalloc; alloc_chrdev_region]
         ++ (flat_map setup_channel (seq 0 k) ++ [gpiod_get_index k])
         ++ gpio_fail n).
Proof.
  intros Hdt Hn Hmem Hk Hok Hfail. unfold servo_probe.
  rewrite Hdt, Hn, Hmem. cbn [negb].
  rewrite (acquire_loop_fails_at env k n 0)
    by (try assumption; try lia; intros j Hj; apply Hok; lia).
  rewrite Nat.sub_0_r. reflexivity.
Qed.

Lemma filter_unwind_range k : forall len a,
  List.filter (is_unwind_below k) (flat_map unwind_channel (seq a len))
  = flat_map unwind_channel (seq a (Nat.min (a + len) k - a)).
Proof.
  induction len as [| len IH]; intros a.
  - replace (Nat.min (a + 0) k - a)%nat with 0%nat by lia. reflexivity.
  - cbn [seq flat_map unwind_channel app List.filter is_unwind_below].
    rewrite IH. destruct (Nat.ltb_spec a k) as [Hlt | Hge].
    + replace (Nat.min (a + S len) k - a)%nat
        with (S (Nat.min (S a + len) k - S a)) by lia.
      reflexivity.
    + replace (Nat.min (S a + len) k - S a)%nat with 0%nat by lia.
      replace (Nat.min (a + S len) k - a)%nat with 0%nat by lia.
      reflexivity.
Qed.

Lemma filter_setup_none k : forall len a,
  List.filter (is_unwind_below k) (flat_map setup_channel (seq a len)) = [].
Proof.
  induction len as [| len IH]; intros a; [reflexivity |].
  cbn [seq flat_map setup_channel app List.filter is_unwind_below]. apply IH.
Qed.

Lemma acquired_setup : forall len a,
  acquired (flat_map setup_channel (seq a len)) = seq a len.
Proof.
  induction len as [| len IH]; intros a; [reflexivity |].
  cbn [seq flat_map setup_channel app]. unfold acquired in *.
  cbn [flat_map app]. rewrite IH. reflexivity.
Qed.

Lemma acquired_unwind : forall len a,
  acquired (flat_map unwind_channel (seq a len)) = [].
Proof.
  induction len as [| len IH]; intros a; [reflexivity |].
  cbn [seq flat_map unwind_channel app]. unfold acquired in *.
  cbn [flat_map app]. apply IH.
Qed.

Lemma unwound_unwind : forall len a,
  unwound (flat_map unwind_channel (seq a len)) = seq a len.
Proof.
  induction len as [| len IH]; intros a; [reflexivity |].
  cbn [seq flat_map unwind_channel app]. unfold unwound in *.
  cbn [flat_map app]. rewrite IH. reflexivity.
Qed.

(** C6, the claim at an environment it does not hold for: with three
    channels and the line of channel 2 unavailable, channels 0 and 1
    were acquired, and the failure path unwinds 0, 1 and 2, in that
    order, not 1 and 0. *)
Lemma probe_failure_unwinding_counterexample :
  let r := servo_probe env_third_line_busy in
  fst r = -1
  /\ acquired (snd r) = [0; 1]%nat
  /\ unwound (snd r) = [0; 1; 2]%nat
  /\ unwound (snd r) <> rev (acquired (snd r)).
Proof. vm_compute. repeat split; discriminate. Qed.

(** C6, as amended. When the acquisition of the output line fails for
    channel [k], the engine unwinds every channel acquired before it,
    0 to [k-1], cancelling its timer, forcing its output inactive and
    releasing its line, in ascending order, then releases the device
    numbers, the channel array and the device node, and reports startup
    failure. *)
Theorem gpio_failure_unwinds_acquired env n k :
  dt_node_found env = true -> n_servos_prop env = Some n ->
  kmalloc_ok env = true ->
  (k < n)%nat ->
  (forall j, (j < k)%nat -> gpio_ok env j = true) ->
  gpio_ok env k = false ->
  let r := servo_probe env in
  fst r = -1
  /\ acquired (snd r) = seq 0 k
  /\ List.filter (is_unwind_below k) (snd r)
     = flat_map unwind_channel (seq 0 k)
  /\ (forall i, (i < k)%nat -> In i (unwound (snd r)))
  /\ exists tr,
       snd r = tr ++ [unregister_chrdev_region; kfree; of_node_put].
Proof.
  intros Hdt Hn Hmem Hk Hok Hfail r. unfold r.
  rewrite (servo_probe_gpio_failure env n k) by assumption.
  cbn [fst snd]. unfold gpio_fail, nservo_fail.
  split; [reflexivity |]. split; [| split; [| split]].
  - unfold acquired. rewrite !flat_map_app.
    fold (acquired (flat_map setup_channel (seq 0 k))).
    fold (acquired (flat_map unwind_channel (seq 0 n))).
    rewrite acquired_setup, acquired_unwind. cbn [flat_map app].
    rewrite !app_nil_r. reflexivity.
  - rewrite !List.filter_app, filter_setup_none, filter_unwind_range.
    cbn [List.filter is_unwind_below app]. rewrite !app_nil_r.
    replace (Nat.min (0 + n) k - 0)%nat with k by lia. reflexivity.
  - intros i Hi. unfold unwound. rewrite !flat_map_app.
    fold (unwound (flat_map unwind_channel (seq 0 n))).
    rewrite unwound_unwind. rewrite !in_app_iff. right. right. left.
    apply in_seq. lia.
  - exists ([kmalloc; alloc_chrdev_region]
            ++ (flat_map setup_channel (seq 0 k) ++ [gpiod_get_index k])
            ++ flat_map unwind_channel (seq 0 n)).
    rewrite <- !app_assoc. reflexivity.
Qed.

Lemma gpio_failure_unwinds_acquired_witness :
  List.filter (is_unwind_below 2) (snd (servo_probe env_third_line_busy))
  = [hrtimer_cancel 0; gpiod_set 0 false; gpiod_put 0;
     hrtimer_cancel 1; gpiod_set 1 false; gpiod_put 1]%nat.
Proof.
  pose proof (gpio_failure_unwinds_acquired env_third_line_busy 3 2) as H.
  destruct H as (_ & _ & H3 & _).
  - reflexivity.
  - reflexivity.
  - reflexivity.
  - lia.
  - intros [| [| j]] Hj; [reflexivity | reflexivity | lia].
  - reflexivity.
  - exact H3.
Defined.

(** * Further properties of the driver *)

(** ** Reachable states *)

Lemma servo_ioctl_timing dm s cmd arg :
  let s' := snd (fst (servo_ioctl dm s cmd arg)) in
  t_switch s' = t_switch s /\ t_next s' = t_next s
  /\ timer_expires s' = timer_expires s /\ gpio s' = gpio s
  /\ (phase_active s' = true -> phase_active s = true).
Proof.
  unfold servo_ioctl.
  repeat match goal with
         | |- context [cmd =? ?c] => destruct (cmd =? c)
         end;
    try destruct arg; cbn [fst snd]; repeat split; try reflexivity;
    flag_bits; try tauto.
  all: intros Hf; discriminate Hf.
Qed.

Lemma reachable_pulse_fields dm s :
  reachable dm s -> servo_inv s /\ pulse_fields_ok s.
Proof.
  induction 1 as [now i sw0 nx0 | s s' Hr [Hinv Hpf] Hstep].
  - split; [apply (reachable_inv dm), reach_setup |].
    intros Ha. discriminate Ha.
  - split; [apply (reachable_inv dm); eapply reach_step; eassumption |].
    unfold pulse_fields_ok in *. destruct Hstep.
    + destruct (enabled s) eqn:He; [destruct (phase_active s) eqn:Ha |].
      * rewrite servo_cb_pulse_end by assumption.
        unfold phase_active. cbn [flags]. flag_bits. intros Hf. discriminate Hf.
      * rewrite servo_cb_pulse_start by assumption.
        cbn [t_switch t_next]. intros _. split; [exact Hinv | reflexivity].
      * rewrite servo_cb_disabled by assumption. exact Hpf.
    + destruct (servo_ioctl_timing dm s cmd arg) as (-> & -> & _ & _ & Hph).
      intros Ha. apply Hpf, Hph, Ha.
    + destruct (servo_write_frame s ubuf len stale) as (Hf & -> & -> & _).
      unfold phase_active. rewrite Hf. exact Hpf.
    + intros Ha. apply Hpf. revert Ha. flag_bits. tauto.
    + intros Ha. apply Hpf. revert Ha. flag_bits.
      destruct (test_bit 2 (flags s)); cbn; congruence.
Qed.

Lemma sample_pulse_reachable dm : reachable dm sample_pulse.
Proof.
  pose (s0 := servo_setup 0 0 0 0).
  pose (s1 := with_flags (set_bit SERVO_OPEN (flags s0)) s0).
  pose (s2 := snd (fst (servo_ioctl dm s1 (SERVO_WV dm) (Some 1500000)))).
  pose (s3 := snd (fst (servo_ioctl dm s2 (SERVO_ENB dm) None))).
  assert (E : sample_pulse = servo_cb dm s3) by (destruct dm; reflexivity).
  rewrite E. unfold s3, s2, s1, s0.
  eapply reach_step; [| apply step_fire].
  eapply reach_step; [| apply step_ioctl].
  eapply reach_step; [| apply step_ioctl].
  eapply reach_step; [| apply step_open].
  apply reach_setup.
Qed.

(** X1. From its setup on, whatever firings and control operations
    follow, the pulse width of a channel is between 1,000,000 and
    2,000,000, and that is what a width read returns. *)
Theorem pulse_width_always_in_range dm s :
  reachable dm s ->
  1000000 <= period_ns s <= 2000000
  /\ read_width dm s = Some (period_ns s).
Proof.
  intros Hr. pose proof (reachable_inv dm s Hr) as Hinv.
  unfold servo_inv, MIN_PERIOD, MAX_PERIOD in Hinv. split; [exact Hinv |].
  rewrite read_width_eq, to_uint32_id; [reflexivity |].
  change (2 ^ 32) with 4294967296. lia.
Qed.

Lemma pulse_width_always_in_range_witness :
  read_width ILP32 sample_pulse = Some 1500000.
Proof.
  destruct (pulse_width_always_in_range ILP32 sample_pulse) as [_ H].
  - apply sample_pulse_reachable.
  - exact H.
Defined.

(** X2. Whenever the phase bit of a channel is set, [t_switch] holds a
    width between 1,000,000 and 2,000,000 and [t_next] is the rest of the
    frame: the low phase to come lasts between 18 and 19 ms. *)
Theorem active_phase_has_frame_remainder dm s :
  reachable dm s -> phase_active s = true ->
  1000000 <= t_switch s <= 2000000
  /\ t_next s = 20000000 - t_switch s
  /\ 18000000 <= t_next s <= 19000000.
Proof.
  intros Hr Ha. destruct (reachable_pulse_fields dm s Hr) as [_ Hpf].
  destruct (Hpf Ha) as [Hsw Hnx].
  unfold MIN_PERIOD, MAX_PERIOD, SERVO_PERIOD in *. lia.
Qed.

Lemma active_phase_has_frame_remainder_witness :
  t_next sample_pulse = 20000000 - t_switch sample_pulse.
Proof.
  destruct (active_phase_has_frame_remainder LP64 sample_pulse)
    as (_ & H & _).
  - apply sample_pulse_reachable.
  - reflexivity.
  - exact H.
Defined.

(** ** Runs of frames *)

Lemma servo_frame_step dm s :
  servo_inv s -> enabled s = true -> phase_active s = false ->
  0 <= timer_expires s -> timer_expires s + SERVO_PERIOD <= KTIME_MAX ->
  let s' := servo_frame dm s in
  servo_inv s' /\ enabled s' = true /\ phase_active s' = false
  /\ inverted s' = inverted s /\ opened s' = opened s
  /\ period_ns s' = period_ns s
  /\ timer_expires s' = timer_expires s + SERVO_PERIOD
  /\ gpio s' = inverted s :: negb (inverted s) :: gpio s.
Proof.
  intros Hinv He Ha Hlo Hhi. unfold servo_frame.
  pose proof (servo_cb_pulse_start dm s Hinv He Ha) as E1.
  assert (He1 : enabled (servo_cb dm s) = true).
  { rewrite E1. revert He. flag_bits. intros ->. reflexivity. }
  assert (Ha1 : phase_active (servo_cb dm s) = true).
  { rewrite E1. flag_bits. reflexivity. }
  pose proof (servo_cb_pulse_end dm _ He1 Ha1) as E2.
  cbv zeta. rewrite E2, E1.
  cbn [gpio timer_expires period_ns flags t_switch t_next idx].
  unfold servo_inv, MIN_PERIOD, MAX_PERIOD in Hinv.
  unfold SERVO_PERIOD, KTIME_MAX in *.
  rewrite (ktime_add_ns_exact (timer_expires s)) by (unfold KTIME_MAX; lia).
  rewrite ktime_add_ns_exact by (unfold KTIME_MAX; lia).
  split; [unfold servo_inv, MIN_PERIOD, MAX_PERIOD; cbn [period_ns]; lia |].
  revert He Ha. flag_bits. flag_bits. intros He Ha. rewrite He.
  repeat split; try reflexivity; try lia.
Qed.

Lemma run_frames_S dm n s :
  run_frames dm (S n) s = servo_frame dm (run_frames dm n s).
Proof. reflexivity. Qed.

Lemma run_firings_S dm n s :
  run_firings dm (S n) s = servo_cb dm (run_firings dm n s).
Proof. reflexivity. Qed.

Lemma run_frames_inverted dm n s :
  inverted (run_frames dm n s) = inverted s.
Proof.
  induction n as [| n IH]; [reflexivity |].
  rewrite run_frames_S. unfold servo_frame.
  destruct (servo_cb_keeps_control dm (servo_cb dm (run_frames dm n s)))
    as (_ & -> & _).
  destruct (servo_cb_keeps_control dm (run_frames dm n s)) as (_ & -> & _).
  exact IH.
Qed.

(** X3. An enabled channel left alone for [n] frames, starting idle,
    keeps its schedule exactly: the expiry has advanced by [n] times
    20,000,000 ns, the channel is idle again, and the line was driven in
    every frame to the active level (high unless inverted) and back to
    the idle level. *)
Theorem frames_advance_by_period dm n s :
  servo_inv s -> enabled s = true -> phase_active s = false ->
  0 <= timer_expires s ->
  timer_expires s + Z.of_nat n * 20000000 <= KTIME_MAX ->
  let s' := run_frames dm n s in
  timer_expires s' = timer_expires s + Z.of_nat n * 20000000
  /\ phase_active s' = false /\ enabled s' = true
  /\ period_ns s' = period_ns s
  /\ gpio s' = frame_levels (inverted s) n ++ gpio s.
Proof.
  intros Hinv He Ha Hlo. induction n as [| n IH]; intros Hhi s'.
  - unfold s'. cbn. repeat split; try assumption. lia.
  - unfold s'. rewrite run_frames_S.
    destruct IH as (IHe & IHa & IHen & IHp & IHg); [lia |].
    assert (Hinv' : servo_inv (run_frames dm n s))
      by (unfold servo_inv; rewrite IHp; exact Hinv).
    destruct (servo_frame_step dm (run_frames dm n s) Hinv' IHen IHa)
      as (_ & H2 & H3 & H4 & _ & H6 & H7 & H8);
      [lia | unfold SERVO_PERIOD; lia |].
    rewrite H7, H8, IHe, IHg, run_frames_inverted, H6, IHp.
    unfold SERVO_PERIOD.
    repeat split; try assumption; try lia.
Qed.

Lemma frames_advance_by_period_witness :
  timer_expires (run_frames ILP32 3 sample_idle) = 1000000 + 3 * 20000000
  /\ gpio (run_frames ILP32 3 sample_idle)
     = [false; true; false; true; false; true; true].
Proof.
  destruct (frames_advance_by_period ILP32 3 sample_idle)
    as (H1 & _ & _ & _ & H5).
  - unfold servo_inv, MIN_PERIOD, MAX_PERIOD. cbn. lia.
  - reflexivity.
  - reflexivity.
  - cbn. lia.
  - unfold KTIME_MAX. cbn. lia.
  - split; [exact H1 | exact H5].
Defined.

(** X4. While a channel is disabled its timer keeps firing every
    20,000,000 ns and nothing else happens: after [n] firings the output
    line, the flags (a phase bit left set by a disable in mid-pulse
    included), the width and the timing fields are as they were. *)
Theorem disabled_firings_only_rearm dm n s :
  enabled s = false ->
  0 <= timer_expires s ->
  timer_expires s + Z.of_nat n * 20000000 <= KTIME_MAX ->
  let s' := run_firings dm n s in
  timer_expires s' = timer_expires s + Z.of_nat n * 20000000
  /\ gpio s' = gpio s /\ flags s' = flags s
  /\ period_ns s' = period_ns s
  /\ t_switch s' = t_switch s /\ t_next s' = t_next s.
Proof.
  intros He Hlo. induction n as [| n IH]; intros Hhi s'.
  - unfold s'. cbn. repeat split. lia.
  - unfold s'. rewrite run_firings_S.
    destruct IH as (IHe & IHg & IHf & IHp & IHsw & IHnx); [lia |].
    rewrite servo_cb_disabled by (unfold enabled; rewrite IHf; exact He).
    cbn [hrtimer_add_expires_ns timer_expires gpio flags period_ns
         t_switch t_next].
    rewrite ktime_add_ns_exact; unfold SERVO_PERIOD; try lia.
    repeat split; try assumption. lia.
Qed.

Lemma disabled_firings_only_rearm_witness :
  timer_expires
    (run_firings ILP32 4 (do_ioctl ILP32 (SERVO_DIS ILP32) sample_pulse))
  = 2500000 + 4 * 20000000
  /\ gpio (run_firings ILP32 4 (do_ioctl ILP32 (SERVO_DIS ILP32) sample_pulse))
     = [true; true].
Proof.
  destruct (disabled_firings_only_rearm ILP32 4
              (do_ioctl ILP32 (SERVO_DIS ILP32) sample_pulse))
    as (H1 & H2 & _).
  - reflexivity.
  - change (0 <= 2500000). lia.
  - change (2500000 + 4 * 20000000 <= 2 ^ 63 - 1). lia.
  - split; [exact H1 | exact H2].
Defined.

(** X5. A width written in the middle of a pulse leaves the frame under
    way at 20,000,000 ns and is the width of the next pulse: the firing
    that starts the next pulse reads it and arms the timer for it. *)
Theorem width_write_applies_to_next_pulse dm s ws :
  servo_inv s -> enabled s = true -> phase_active s = false ->
  0 <= timer_expires s -> timer_expires s + 2 * SERVO_PERIOD <= KTIME_MAX ->
  let s1 := width_writes dm ws (servo_cb dm s) in
  let s2 := servo_cb dm s1 in
  let s3 := servo_cb dm s2 in
  1000000 <= period_ns s1 <= 2000000
  /\ timer_expires s2 = timer_expires s + 20000000
  /\ phase_active s3 = true
  /\ t_switch s3 = period_ns s1
  /\ timer_expires s3 = timer_expires s2 + period_ns s1.
Proof.
  intros Hinv He Ha Hlo Hhi s1 s2 s3.
  pose proof (servo_cb_pulse_start dm s Hinv He Ha) as E0.
  destruct (width_writes_frame dm ws (servo_cb dm s)) as (Hf & Hsw & Hnx & Hx & Hg).
  fold s1 in Hf, Hsw, Hnx, Hx, Hg.
  assert (Hinv1 : servo_inv s1)
    by (apply width_writes_inv, servo_cb_inv, Hinv).
  rewrite E0 in Hf, Hnx, Hx. cbn [flags t_next timer_expires] in Hf, Hnx, Hx.
  assert (He1 : enabled s1 = true).
  { unfold enabled. rewrite Hf. revert He. flag_bits. intros ->. reflexivity. }
  assert (Ha1 : phase_active s1 = true).
  { unfold phase_active. rewrite Hf. flag_bits. reflexivity. }
  pose proof (servo_cb_pulse_end dm s1 He1 Ha1) as E2. fold s2 in E2.
  assert (Hinv2 : servo_inv s2) by (apply servo_cb_inv, Hinv1).
  assert (Hp2 : period_ns s2 = period_ns s1) by (rewrite E2; reflexivity).
  assert (He2 : enabled s2 = true).
  { rewrite E2. unfold enabled. cbn [flags]. rewrite Hf. revert He.
    flag_bits. flag_bits. intros ->. reflexivity. }
  assert (Ha2 : phase_active s2 = false).
  { rewrite E2. unfold phase_active. cbn [flags]. flag_bits. reflexivity. }
  pose proof (servo_cb_pulse_start dm s2 Hinv2 He2 Ha2) as E3. fold s3 in E3.
  unfold servo_inv, MIN_PERIOD, MAX_PERIOD in Hinv, Hinv1.
  unfold SERVO_PERIOD, KTIME_MAX in *.
  assert (Hx2 : timer_expires s2 = timer_expires s + 20000000).
  { rewrite E2. cbn [timer_expires]. rewrite Hx, Hnx.
    rewrite (ktime_add_ns_exact (timer_expires s)) by (unfold KTIME_MAX; lia).
    rewrite ktime_add_ns_exact by (unfold KTIME_MAX; lia). lia. }
  split; [exact Hinv1 |]. split; [exact Hx2 |].
  rewrite E3. cbn [t_switch timer_expires]. rewrite Hp2, Hx2.
  rewrite ktime_add_ns_exact by (unfold KTIME_MAX; lia).
  repeat split. unfold phase_active. cbn [flags]. flag_bits. reflexivity.
Qed.

Lemma width_write_applies_to_next_pulse_witness :
  let s1 := width_writes ILP32 [width_ioctl (Some 1200000)]
              (servo_cb ILP32 sample_idle) in
  t_switch (servo_cb ILP32 (servo_cb ILP32 s1)) = period_ns s1.
Proof.
  pose proof (width_write_applies_to_next_pulse ILP32 sample_idle
                [width_ioctl (Some 1200000)]) as H.
  destruct H as (_ & _ & _ & H4 & _).
  - unfold servo_inv, MIN_PERIOD, MAX_PERIOD. cbn. lia.
  - reflexivity.
  - reflexivity.
  - cbn. lia.
  - unfold KTIME_MAX, SERVO_PERIOD. cbn. lia.
  - exact H4.
Defined.

(** X6. After the ioctl ENABLE the next firing always starts a pulse,
    whatever the phase was: the line is driven to the active level, the
    phase bit is set and the timer is armed for the current width. *)
Theorem enable_then_firing_starts_pulse dm s arg :
  servo_inv s ->
  let r := servo_ioctl dm s (SERVO_ENB dm) arg in
  let s1 := snd (fst r) in
  let s2 := servo_cb dm s1 in
  fst (fst r) = 0
  /\ enabled s1 = true /\ phase_active s1 = false
  /\ gpio s2 = negb (inverted s) :: gpio s
  /\ phase_active s2 = true
  /\ t_switch s2 = period_ns s
  /\ t_next s2 = SERVO_PERIOD - period_ns s
  /\ timer_expires s2 = ktime_add_ns (timer_expires s) (period_ns s).
Proof.
  intros Hinv r s1 s2. unfold r in *. unfold s2, s1.
  rewrite servo_ioctl_ENB. cbn [fst snd].
  set (s' := with_flags _ s).
  assert (He : enabled s' = true) by (unfold s'; flag_bits; reflexivity).
  assert (Ha : phase_active s' = false)
    by (unfold s'; flag_bits; flag_bits; reflexivity).
  assert (Hinv' : servo_inv s') by exact Hinv.
  rewrite (servo_cb_pulse_start dm s' Hinv' He Ha).
  cbn [gpio t_switch t_next timer_expires flags].
  repeat split; try assumption.
  - unfold s'. flag_bits. flag_bits. reflexivity.
  - unfold phase_active. cbn [flags]. flag_bits. reflexivity.
Qed.

Lemma enable_then_firing_starts_pulse_witness :
  gpio (servo_cb ILP32 (do_ioctl ILP32 (SERVO_ENB ILP32) sample_pulse))
  = [true; true; true].
Proof.
  pose proof (enable_then_firing_starts_pulse ILP32 sample_pulse None) as H.
  destruct H as (_ & _ & _ & H4 & _).
  - unfold servo_inv, MIN_PERIOD, MAX_PERIOD. cbn. lia.
  - exact H4.
Defined.

(** ** Flags through the ioctl interface *)

Lemma land_bit_test u k :
  0 <= k -> negb (Z.land u (Z.shiftl 1 k) =? 0) = Z.testbit u k.
Proof.
  intros Hk. rewrite Z.shiftl_1_l.
  assert (E : Z.land u (2 ^ k) = if Z.testbit u k then 2 ^ k else 0).
  { apply Z.bits_inj'. intros n Hn.
    rewrite Z.land_spec, Z.pow2_bits_eqb by lia.
    destruct (Z.eqb_spec k n) as [-> | Hne].
    - rewrite andb_true_r. destruct (Z.testbit u n) eqn:Eb.
      + rewrite Z.pow2_bits_eqb, Z.eqb_refl by lia. reflexivity.
      + rewrite Z.bits_0. reflexivity.
    - rewrite andb_false_r. destruct (Z.testbit u k).
      + rewrite Z.pow2_bits_eqb by lia. symmetry. apply Z.eqb_neq. exact Hne.
      + rewrite Z.bits_0. reflexivity. }
  rewrite E. destruct (Z.testbit u k); [| reflexivity].
  assert (0 < 2 ^ k) by (apply Z.pow_pos_nonneg; lia).
  destruct (Z.eqb_spec (2 ^ k) 0); [lia | reflexivity].
Qed.

Lemma land_3_bits u :
  Z.land u 3 = Z.b2z (Z.testbit u 0) + 2 * Z.b2z (Z.testbit u 1).
Proof.
  change 3 with (Z.ones 2). rewrite Z.land_ones by lia.
  change (2 ^ 2) with 4.
  rewrite (Z.testbit_spec' u 0), (Z.testbit_spec' u 1) by lia.
  change (2 ^ 0) with 1. change (2 ^ 1) with 2. rewrite Z.div_1_r.
  assert (H0 : 0 <= u mod 2 < 2) by (apply Z.mod_pos_bound; lia).
  assert (H1 : 0 <= (u / 2) mod 2 < 2) by (apply Z.mod_pos_bound; lia).
  pose proof (Z.div_mod u 2). pose proof (Z.div_mod (u / 2) 2).
  pose proof (Z.div_mod u 4) as H4.
  replace (u / 4) with (u / 2 / 2) in H4
    by (rewrite Z.div_div by lia; reflexivity).
  assert (0 <= u mod 4 < 4) by (apply Z.mod_pos_bound; lia).
  lia.
Qed.

Lemma read_flags_eq dm s :
  read_flags dm s = Some (Z.b2z (enabled s) + 2 * Z.b2z (inverted s)).
Proof.
  unfold read_flags, enabled, inverted.
  assert (E : servo_ioctl dm s (SERVO_RF dm) (Some 0)
              = (0, s,
                 Some (let v1 := if test_bit SERVO_ENABLED (flags s)
                                 then Z.lor 0 (Z.shiftl 1 SERVO_ENABLED) else 0 in
                       if test_bit SERVO_INVERTED (flags s)
                       then Z.lor v1 (Z.shiftl 1 SERVO_INVERTED) else v1)))
    by (destruct dm; reflexivity).
  rewrite E. cbn [snd].
  destruct (test_bit SERVO_ENABLED (flags s)),
    (test_bit SERVO_INVERTED (flags s)); reflexivity.
Qed.

Lemma servo_ioctl_WF dm s u :
  servo_ioctl dm s (SERVO_WF dm) (Some u)
  = (0,
     with_flags
       (assign_bit SERVO_INVERTED (Z.testbit (to_uint32 u) SERVO_INVERTED)
          (assign_bit SERVO_ENABLED (Z.testbit (to_uint32 u) SERVO_ENABLED)
             (flags s))) s,
     Some u).
Proof.
  rewrite <- !land_bit_test by (unfold SERVO_ENABLED, SERVO_INVERTED; lia).
  destruct dm; reflexivity.
Qed.

(** X7. The flags written with WRITE_FLAGS are the flags READ_FLAGS
    returns, restricted to the enabled and inverted bits: after writing
    [u], a read returns [u & 3]. The write changes neither the phase
    bit, the open bit nor the width. *)
Theorem flags_write_then_read dm s u :
  0 <= u < 2 ^ 32 ->
  let s' := write_flags dm u s in
  read_flags dm s' = Some (Z.land u 3)
  /\ enabled s' = Z.testbit u 0
  /\ inverted s' = Z.testbit u 1
  /\ phase_active s' = phase_active s
  /\ opened s' = opened s
  /\ period_ns s' = period_ns s.
Proof.
  intros Hu s'. unfold s', write_flags.
  rewrite servo_ioctl_WF, to_uint32_id by exact Hu. cbn [fst snd].
  set (f := assign_bit _ _ _).
  assert (He : enabled (with_flags f s) = Z.testbit u 0)
    by (unfold f; flag_bits; flag_bits; reflexivity).
  assert (Hi : inverted (with_flags f s) = Z.testbit u 1)
    by (unfold f; flag_bits; flag_bits; reflexivity).
  rewrite read_flags_eq, He, Hi, land_3_bits.
  repeat split; unfold f; flag_bits; flag_bits; reflexivity.
Qed.

Lemma flags_write_then_read_witness :
  read_flags ILP32 (write_flags ILP32 7 sample_pulse) = Some 3.
Proof.
  destruct (flags_write_then_read ILP32 sample_pulse 7) as [H _].
  - change (2 ^ 32) with 4294967296. lia.
  - exact H.
Defined.

Lemma servo_ioctl_DIS dm s arg :
  servo_ioctl dm s (SERVO_DIS dm) arg
  = (0, with_flags (clear_bit SERVO_ENABLED (flags s)) s, arg).
Proof. destruct dm; reflexivity. Qed.

Lemma servo_ioctl_INV dm s arg :
  servo_ioctl dm s (SERVO_INV dm) arg
  = (0, with_flags (change_bit SERVO_INVERTED (flags s)) s, arg).
Proof. destruct dm; reflexivity. Qed.

Ltac flag_word_eq :=
  unfold set_bit, clear_bit, change_bit;
  apply Z.bits_inj'; intros n Hn;
  repeat (rewrite Z.lor_spec || rewrite Z.ldiff_spec || rewrite Z.lxor_spec);
  repeat match goal with
         | |- context [Z.testbit ?a n] => destruct (Z.testbit a n)
         end;
  reflexivity.

(** X8. ENABLE and DISABLE are idempotent and INVERT is an involution:
    a second ENABLE or DISABLE changes nothing, and two INVERTs give
    back the channel as it was; one INVERT flips the inverted flag. *)
Theorem enable_disable_idempotent_invert_twice dm s :
  do_ioctl dm (SERVO_ENB dm) (do_ioctl dm (SERVO_ENB dm) s)
  = do_ioctl dm (SERVO_ENB dm) s
  /\ do_ioctl dm (SERVO_DIS dm) (do_ioctl dm (SERVO_DIS dm) s)
     = do_ioctl dm (SERVO_DIS dm) s
  /\ do_ioctl dm (SERVO_INV dm) (do_ioctl dm (SERVO_INV dm) s) = s
  /\ inverted (do_ioctl dm (SERVO_INV dm) s) = negb (inverted s)
  /\ enabled (do_ioctl dm (SERVO_ENB dm) s) = true
  /\ enabled (do_ioctl dm (SERVO_DIS dm) s) = false.
Proof.
  unfold do_ioctl.
  rewrite !servo_ioctl_ENB, !servo_ioctl_DIS, !servo_ioctl_INV. cbn [fst snd].
  destruct s as [g e p f sw nx i]. unfold with_flags. cbn [flags gpio
    timer_expires period_ns t_switch t_next idx].
  split; [f_equal; flag_word_eq |].
  split; [f_equal; flag_word_eq |].
  split; [f_equal; flag_word_eq |].
  repeat split; flag_bits; flag_bits; reflexivity.
Qed.

(** X9. A failed ioctl leaves the channel as it was and tells the
    failures apart: -1, -2, -3 and -4 when the user word of WRITE_FLAGS,
    READ_FLAGS, WRITE_WIDTH and READ_WIDTH cannot be accessed, -5 for a
    command that is none of the seven. *)
Theorem ioctl_failures_leave_channel dm s :
  servo_ioctl dm s (SERVO_WF dm) None = (-1, s, None)
  /\ servo_ioctl dm s (SERVO_RF dm) None = (-2, s, None)
  /\ servo_ioctl dm s (SERVO_WV dm) None = (-3, s, None)
  /\ servo_ioctl dm s (SERVO_RV dm) None = (-4, s, None)
  /\ (forall cmd arg,
         cmd <> SERVO_ENB dm -> cmd <> SERVO_DIS dm -> cmd <> SERVO_INV dm ->
         cmd <> SERVO_WF dm -> cmd <> SERVO_RF dm ->
         cmd <> SERVO_WV dm -> cmd <> SERVO_RV dm ->
         servo_ioctl dm s cmd arg = (-5, s, arg)).
Proof.
  repeat split; try (destruct dm; reflexivity).
  intros cmd arg H1 H2 H3 H4 H5 H6 H7. unfold servo_ioctl.
  repeat match goal with
         | |- context [cmd =? ?c] =>
             destruct (Z.eqb_spec cmd c); [contradiction |]
         end.
  reflexivity.
Qed.

Lemma ioctl_failures_leave_channel_witness :
  servo_ioctl ILP32 sample_pulse 0 (Some 5) = (-5, sample_pulse, Some 5).
Proof.
  destruct (ioctl_failures_leave_channel ILP32 sample_pulse)
    as (_ & _ & _ & _ & H).
  apply H; vm_compute; discriminate.
Defined.

(** ** The textual read *)

Lemma decimal_text_short p :
  0 <= p < 10000000 -> (length (decimal_text p) <= 8)%nat.
Proof.
  intros Hp. unfold decimal_text. rewrite length_app. cbn [length].
  assert (length (utoa p) <= 7)%nat; [| lia].
  apply utoa_length; [| lia]. change (10 ^ Z.of_nat 7) with 10000000. lia.
Qed.

Lemma servo_read_prefix s len :
  servo_inv s ->
  let text := decimal_text (period_ns s) in
  let n := Nat.min len (length text) in
  servo_read s len 0 true = (Z.of_nat n, Z.of_nat n, Some (take n text)).
Proof.
  intros Hinv text n. unfold servo_inv, MIN_PERIOD, MAX_PERIOD in Hinv.
  pose proof (decimal_text_short (period_ns s)) as Hl. fold text in Hl.
  unfold servo_read, atomic_read.
  rewrite to_uint32_id by (change (2 ^ 32) with 4294967296; lia).
  change (0 >? 0) with false. cbv iota. fold (decimal_text (period_ns s)).
  fold text. rewrite Z.add_0_l.
  rewrite (firstn_all2 text) by lia.
  assert (E : (if Nat.ltb len (length text) then len else length text) = n).
  { unfold n. destruct (Nat.ltb_spec len (length text)); lia. }
  rewrite E. reflexivity.
Qed.

(** X10. A read at offset 0 hands out the width as decimal text with a
    final newline, at most 8 bytes, cut to the length asked for, and
    moves the offset by the bytes handed out; a read at a positive
    offset returns 0, so the text is delivered once. When the user
    buffer cannot be written the read returns 0 and the offset stays. *)
Theorem read_delivers_width_text_once s len :
  servo_inv s ->
  let text := decimal_text (period_ns s) in
  let n := Nat.min len (length text) in
  servo_read s len 0 true = (Z.of_nat n, Z.of_nat n, Some (take n text))
  /\ (length text <= 8)%nat
  /\ servo_read s len 0 false = (0, 0, None)
  /\ (forall len' off w, 0 < off -> servo_read s len' off w = (0, off, None)).
Proof.
  intros Hinv text n.
  split; [apply servo_read_prefix, Hinv |].
  split.
  { apply decimal_text_short.
    unfold servo_inv, MIN_PERIOD, MAX_PERIOD in Hinv. lia. }
  split; [reflexivity |].
  intros len' off w Hoff. unfold servo_read.
  destruct (Z.gtb_spec off 0); [reflexivity | lia].
Qed.

Lemma read_delivers_width_text_once_witness :
  servo_read sample_idle 3 0 true = (3, 3, Some (text_of "150")).
Proof.
  destruct (read_delivers_width_text_once sample_idle 3) as [H _].
  - unfold servo_inv, MIN_PERIOD, MAX_PERIOD. cbn. lia.
  - exact H.
Defined.

(** X11. The text a read hands out, written back through the textual
    write on any channel, sets that channel to the width that was read. *)
Theorem read_then_write_restores_width s s' len stale :
  servo_inv s -> (8 <= len)%nat ->
  exists text,
    snd (servo_read s len 0 true) = Some text
    /\ fst (servo_write s' text (length text) stale) = Z.of_nat (length text)
    /\ period_ns (snd (servo_write s' text (length text) stale)) = period_ns s.
Proof.
  intros Hinv Hlen. exists (decimal_text (period_ns s)).
  pose proof (servo_read_prefix s len Hinv) as Hr. cbv zeta in Hr.
  unfold servo_inv, MIN_PERIOD, MAX_PERIOD in Hinv.
  pose proof (decimal_text_short (period_ns s)) as Hl.
  rewrite Nat.min_r, firstn_all in Hr by lia.
  rewrite Hr. cbn [snd]. split; [reflexivity |].
  rewrite servo_write_decimal by (change (10 ^ 14) with 100000000000000; lia).
  cbn [fst snd]. split; [reflexivity |].
  rewrite period_after_set, to_uint32_id
    by (change (2 ^ 32) with 4294967296; lia).
  unfold clamp_period, MIN_PERIOD, MAX_PERIOD.
  destruct (Z.ltb_spec (period_ns s) 1000000); [lia |].
  destruct (Z.gtb_spec (period_ns s) 2000000); [lia | reflexivity].
Qed.

Lemma read_then_write_restores_width_witness :
  exists text,
    snd (servo_read sample_pulse 64 0 true) = Some text
    /\ fst (servo_write sample_disabled text (length text) stale_seven)
       = Z.of_nat (length text)
    /\ period_ns (snd (servo_write sample_disabled text (length text) stale_seven))
       = period_ns sample_pulse.
Proof.
  apply (read_then_write_restores_width sample_pulse sample_disabled 64
           stale_seven).
  - unfold servo_inv, MIN_PERIOD, MAX_PERIOD. cbn. lia.
  - lia.
Defined.

(** ** More on the textual write *)

Lemma sscanf_d_digits v rest :
  0 <= v < 10 ^ 20 ->
  sscanf_d (utoa v ++ rest) = Some (to_int32 (parse_integer rest v)).
Proof.
  intros Hv. unfold sscanf_d.
  destruct (utoa_head v) as (c & tl & E).
  pose proof (utoa_digits v (proj1 Hv)) as Hd. rewrite E in Hd.
  inversion Hd as [| ? ? Hc _]; subst. unfold is_digit_char in Hc.
  assert (Hsp : isspace c = false).
  { unfold isdigit in Hc. unfold isspace.
    apply andb_true_iff in Hc as [H1 H2].
    apply Z.leb_le in H1. apply Z.leb_le in H2.
    destruct (Z.leb_spec 9 (char_code c)), (Z.leb_spec (char_code c) 13),
      (Z.eqb_spec (char_code c) 32), (Z.eqb_spec (char_code c) 160);
      cbn; lia. }
  assert (Hmi : Ascii.eqb c minus_sign = false).
  { apply Ascii.eqb_neq. intros ->. discriminate Hc. }
  rewrite E. cbn [app skip_spaces]. rewrite Hsp, Hmi, Hc.
  change (c :: tl ++ rest) with ((c :: tl) ++ rest).
  rewrite <- E, parse_integer_app by (apply utoa_digits; lia).
  unfold utoa. rewrite parse_integer_utoa_aux by exact Hv. reflexivity.
Qed.

(** X12. A textual write of the digits of [v] with no newline after
    them takes in the byte the stack held behind the copied text: when
    that byte is a digit [d] the number stored is [10 v + d], otherwise
    it is [v] (in both cases reduced modulo 2^32 and clamped). *)
Theorem write_without_newline_takes_stale_byte s v stale :
  0 <= v < 10 ^ 14 ->
  let text := utoa v in
  let g := stale (length text) in
  servo_write s text (length text) stale
  = (Z.of_nat (length text),
     atomic_set
       (clamp_period
          (to_uint32 (if isdigit g then v * 10 + digit_value g else v))) s).
Proof.
  intros Hv text g.
  assert (Hl : (length text <= 14)%nat) by (apply utoa_length; [exact Hv | lia]).
  rewrite servo_write_whole_text
    by (try lia; apply digits_not_nul, utoa_digits; lia).
  fold g. unfold text.
  rewrite sscanf_d_digits by (change (10 ^ 20) with (10 ^ 14 * 1000000); lia).
  rewrite to_uint32_to_int32. do 3 f_equal.
  cbn [until_nul]. destruct (Ascii.eqb_spec g NUL) as [-> | Hne].
  - reflexivity.
  - change (Ascii.eqb NUL NUL) with true. cbn [parse_integer].
    destruct (isdigit g); reflexivity.
Qed.

Lemma write_without_newline_takes_stale_byte_witness :
  period_ns (snd (servo_write sample_idle (utoa 120000) (length (utoa 120000))
                    stale_seven))
  = 1200007.
Proof.
  pose proof (write_without_newline_takes_stale_byte sample_idle 120000
                stale_seven) as H.
  cbv zeta in H. rewrite H; [reflexivity |].
  change (10 ^ 14) with 100000000000000. lia.
Defined.

Lemma servo_write_kbuf_readable ubuf len stale :
  (Nat.min len 15 <= length ubuf)%nat ->
  exists m, servo_write_kbuf ubuf len stale = Some m.
Proof.
  intros H. unfold servo_write_kbuf, copy_from_user.
  rewrite write_klen_min.
  destruct (Nat.leb_spec (Nat.min len 15) (length ubuf)); [eauto | lia].
Qed.

(** X13. A textual write looks at the first [min(len,15)] bytes of the
    user buffer and at the one stack byte behind them, and at nothing
    else: two writes that agree on these give the same result. It
    returns 0 or [min(len,15)], never more than 15 for any length. *)
Theorem write_depends_on_first_fifteen_bytes s ubuf1 ubuf2 len stale1 stale2 :
  let k := Nat.min len 15 in
  (k <= length ubuf1)%nat -> (k <= length ubuf2)%nat ->
  take k ubuf1 = take k ubuf2 -> stale1 k = stale2 k ->
  servo_write s ubuf1 len stale1 = servo_write s ubuf2 len stale2
  /\ fst (servo_write s ubuf1 len stale1) = Z.of_nat k
  /\ fst (servo_write s ubuf1 len stale1) <= 15.
Proof.
  intros k H1 H2 Ht Hs.
  destruct (servo_write_kbuf_readable ubuf1 len stale1 H1) as [m1 E1].
  destruct (servo_write_kbuf_readable ubuf2 len stale2 H2) as [m2 E2].
  unfold servo_write, c_string. rewrite E1, E2.
  rewrite (servo_write_kbuf_string _ _ _ _ E1),
    (servo_write_kbuf_string _ _ _ _ E2), write_klen_min.
  fold k. rewrite Ht, Hs.
  destruct (sscanf_d _); cbn [fst]; repeat split; unfold k; lia.
Qed.

Lemma write_depends_on_first_fifteen_bytes_witness :
  servo_write sample_idle (text_of "1500000        123") 18 stale_nul
  = servo_write sample_idle (text_of "1500000        xyz") 18 stale_nul.
Proof.
  destruct (write_depends_on_first_fifteen_bytes sample_idle
              (text_of "1500000        123") (text_of "1500000        xyz")
              18 stale_nul stale_nul) as [H _].
  - cbn. lia.
  - cbn. lia.
  - reflexivity.
  - reflexivity.
  - exact H.
Defined.

(** ** Initialization and removal: what is acquired and what is released *)

Lemma flat_map_nested {A B C} (f : B -> list C) (g : A -> list B) l :
  flat_map f (flat_map g l) = flat_map (fun x => flat_map f (g x)) l.
Proof.
  induction l as [| x l IH]; [reflexivity |].
  cbn [flat_map]. rewrite flat_map_app, IH. reflexivity.
Qed.

Lemma flat_map_of_map {A B C} (f : B -> list C) (g : A -> B) l :
  flat_map f (map g l) = flat_map (fun x => f (g x)) l.
Proof.
  induction l as [| x l IH]; [reflexivity |].
  cbn [flat_map map]. rewrite IH. reflexivity.
Qed.

Lemma flat_map_single {A} (l : list A) : flat_map (fun x => [x]) l = l.
Proof.
  induction l as [| x l IH]; [reflexivity |]. cbn [flat_map app].
  rewrite IH. reflexivity.
Qed.

Lemma flat_map_none {A B} (l : list A) : flat_map (fun _ => @nil B) l = [].
Proof. induction l as [| x l IH]; [reflexivity |]. exact IH. Qed.

(** Reads a trace made of the loops of the probe and of the removal. *)
Ltac read_trace :=
  unfold acquired, unwound, released, destroyed, created,
    device_fail, class_fail, gpio_fail, nservo_fail;
  repeat (progress (repeat (rewrite flat_map_app || rewrite flat_map_nested
                            || rewrite flat_map_of_map);
                    cbn [flat_map app setup_channel unwind_channel
                         remove_channel]));
  rewrite ?flat_map_single, ?flat_map_none, ?app_nil_r;
  cbn [app].

Lemma acquire_loop_spec env : forall todo i,
  snd (acquire_loop env i todo) = forallb (gpio_ok env) (seq i todo)
  /\ (snd (acquire_loop env i todo) = true ->
      fst (acquire_loop env i todo) = flat_map setup_channel (seq i todo)).
Proof.
  induction todo as [| todo IH]; intros i; [split; reflexivity |].
  cbn [acquire_loop seq forallb flat_map].
  destruct (gpio_ok env i); [| split; [reflexivity | discriminate]].
  destruct (IH (S i)) as [H1 H2].
  destruct (acquire_loop env (S i) todo) as [tr ok]. cbn [fst snd] in *.
  split; [exact H1 |]. intros Hok. rewrite (H2 Hok). reflexivity.
Qed.

Lemma device_loop_spec env : forall todo i,
  snd (device_loop env i todo) = forallb (device_create_ok env) (seq i todo)
  /\ (snd (device_loop env i todo) = true ->
      fst (device_loop env i todo) = map device_create (seq i todo))
  /\ exists k, fst (device_loop env i todo) = map device_create (seq i k).
Proof.
  induction todo as [| todo IH]; intros i.
  - split; [reflexivity |]. split; [reflexivity |]. exists 0%nat. reflexivity.
  - cbn [device_loop seq forallb map].
    destruct (device_create_ok env i).
    + destruct (IH (S i)) as (H1 & H2 & k & H3).
      destruct (device_loop env (S i) todo) as [tr ok]. cbn [fst snd] in *.
      split; [exact H1 |]. split.
      * intros Hok. rewrite (H2 Hok). reflexivity.
      * exists (S k). rewrite H3. reflexivity.
    + split; [reflexivity |]. split; [discriminate |].
      exists 1%nat. reflexivity.
Qed.

(** X14. The probe returns 0 when the device node is found, the number
    of channels is read and every allocation, line, class, device region
    and device file is obtained, and -1 in every other case. *)
Theorem probe_succeeds_iff_every_call_does env :
  fst (servo_probe env)
  = if dt_node_found env
       && match n_servos_prop env with
          | Some n => probe_all_ok env n
          | None => false
          end
    then 0 else -1.
Proof.
  unfold servo_probe, probe_all_ok.
  destruct (dt_node_found env); [| reflexivity].
  destruct (n_servos_prop env) as [n |]; [| reflexivity].
  destruct (kmalloc_ok env); [| reflexivity]. cbn [negb andb].
  destruct (acquire_loop_spec env n 0) as [Ha _].
  destruct (device_loop_spec env n 0) as (Hd & _).
  destruct (acquire_loop env 0 n) as [tr1 ok1].
  destruct (device_loop env 0 n) as [tr2 ok2]. cbn [snd] in Ha, Hd.
  rewrite <- Ha, <- Hd.
  destruct ok1; [| reflexivity].
  destruct (class_create_ok env); [| reflexivity].
  destruct (cdev_add_ok env); [| reflexivity].
  destruct ok2; reflexivity.
Qed.

(** X15. When the probe fails after every line was acquired (the class,
    the character device or a device file is refused), all the channels,
    and they are the ones acquired, have their timer cancelled and their
    line released, and the device region, the array and the device node
    are given back. *)
Theorem late_probe_failure_unwinds_all env n :
  dt_node_found env = true -> n_servos_prop env = Some n ->
  kmalloc_ok env = true ->
  forallb (gpio_ok env) (seq 0 n) = true ->
  fst (servo_probe env) = -1 ->
  let tr := snd (servo_probe env) in
  acquired tr = seq 0 n
  /\ unwound tr = acquired tr
  /\ released tr = acquired tr
  /\ exists pre, tr = pre ++ cdev_del :: gpio_fail n.
Proof.
  intros Hdt Hn Hmem Hgpio Hret tr. unfold tr. clear tr. revert Hret.
  unfold servo_probe. rewrite Hdt, Hn, Hmem. cbn [negb].
  destruct (acquire_loop_spec env n 0) as [Ha1 Ha2].
  destruct (device_loop_spec env n 0) as (Hd1 & Hd2 & k & Hd3).
  destruct (acquire_loop env 0 n) as [tr1 ok1].
  destruct (device_loop env 0 n) as [tr2 ok2]. cbn [fst snd] in *.
  rewrite Hgpio in Ha1. subst ok1. rewrite (Ha2 eq_refl). cbn [negb].
  subst tr2.
  destruct (class_create_ok env); cbn [negb];
    [destruct (cdev_add_ok env); cbn [negb]; [destruct ok2; cbn [negb] |] |];
    cbn [fst snd]; intros Hret; try discriminate Hret.
  - split; [read_trace; reflexivity |].
    split; [read_trace; reflexivity |].
    split; [read_trace; reflexivity |].
    eexists. unfold device_fail, class_fail.
    rewrite !app_assoc. reflexivity.
  - split; [read_trace; reflexivity |].
    split; [read_trace; reflexivity |].
    split; [read_trace; reflexivity |].
    eexists. unfold class_fail. rewrite !app_assoc. reflexivity.
  - split; [read_trace; reflexivity |].
    split; [read_trace; reflexivity |].
    split; [read_trace; reflexivity |].
    eexists. unfold class_fail. rewrite !app_assoc. reflexivity.
Qed.

Lemma late_probe_failure_unwinds_all_witness :
  unwound (snd (servo_probe env_second_device_fails)) = [0; 1]%nat.
Proof.
  destruct (late_probe_failure_unwinds_all env_second_device_fails 2)
    as (H1 & H2 & _).
  - reflexivity.
  - reflexivity.
  - reflexivity.
  - reflexivity.
  - reflexivity.
  - rewrite H2, H1. reflexivity.
Defined.

(** X16. After a successful probe nothing has been released, and the
    removal returns 0 and cancels the timer and releases the line of
    exactly the channels the probe acquired, and destroys exactly the
    device files it created, in the same order. *)
Theorem remove_releases_what_probe_acquired env n :
  n_servos_prop env = Some n -> fst (servo_probe env) = 0 ->
  let tp := snd (servo_probe env) in
  let tr := snd (servo_remove n) in
  fst (servo_remove n) = 0
  /\ acquired tp = seq 0 n /\ created tp = seq 0 n
  /\ unwound tp = [] /\ released tp = [] /\ destroyed tp = []
  /\ unwound tr = acquired tp /\ released tr = acquired tp
  /\ destroyed tr = created tp
  /\ acquired tr = [] /\ created tr = [].
Proof.
  intros Hn Hret tp tr. unfold tp, tr. clear tp tr. revert Hret.
  unfold servo_probe, servo_remove. rewrite Hn.
  destruct (dt_node_found env); cbn [negb fst]; [| discriminate].
  destruct (kmalloc_ok env); cbn [negb fst]; [| discriminate].
  destruct (acquire_loop_spec env n 0) as [_ Ha2].
  destruct (device_loop_spec env n 0) as (_ & Hd2 & _).
  destruct (acquire_loop env 0 n) as [tr1 ok1].
  destruct (device_loop env 0 n) as [tr2 ok2]. cbn [fst snd] in *.
  destruct ok1; cbn [negb fst]; [| discriminate].
  destruct (class_create_ok env); cbn [negb fst]; [| discriminate].
  destruct (cdev_add_ok env); cbn [negb fst]; [| discriminate].
  destruct ok2; cbn [negb fst snd]; [| discriminate].
  intros _. rewrite (Ha2 eq_refl), (Hd2 eq_refl).
  repeat split; read_trace; reflexivity.
Qed.

Lemma remove_releases_what_probe_acquired_witness :
  released (snd (servo_remove 2)) = acquired (snd (servo_probe env_all_fine)).
Proof.
  destruct (remove_releases_what_probe_acquired env_all_fine 2)
    as (_ & _ & _ & _ & _ & _ & _ & H & _).
  - reflexivity.
  - reflexivity.
  - exact H.
Defined.

(** ** The thread variant: the register and the schedule *)

Lemma to_uint32_testbit x j :
  0 <= j < 32 -> Z.testbit (to_uint32 x) j = Z.testbit x j.
Proof.
  intros Hj. unfold to_uint32, to_unsigned.
  apply Z.mod_pow2_bits_low. lia.
Qed.

Lemma toggle_servo_bit_spec reg j :
  0 <= j < 32 ->
  Z.testbit (toggle_servo_bit reg) j = xorb (Z.testbit reg j) (j =? 2).
Proof.
  intros Hj. unfold toggle_servo_bit, SERVO_BIT.
  rewrite to_uint32_testbit, Z.lxor_spec, Z.shiftl_1_l, Z.pow2_bits_eqb by lia.
  rewrite (Z.eqb_sym 2 j). reflexivity.
Qed.

Lemma lower_servo_bit_spec reg j :
  0 <= j < 32 ->
  Z.testbit (lower_servo_bit reg) j = Z.testbit reg j && negb (j =? 2).
Proof.
  intros Hj. unfold lower_servo_bit, SERVO_BIT.
  rewrite to_uint32_testbit, Z.land_spec, Z.lnot_spec, Z.shiftl_1_l,
    Z.pow2_bits_eqb by lia.
  rewrite (Z.eqb_sym 2 j). reflexivity.
Qed.

Lemma raise_servo_bit_spec reg j :
  0 <= j < 32 ->
  Z.testbit (raise_servo_bit reg) j = Z.testbit reg j || (j =? 2).
Proof.
  intros Hj. unfold raise_servo_bit, SERVO_BIT.
  rewrite to_uint32_testbit, Z.lor_spec, Z.shiftl_1_l, Z.pow2_bits_eqb by lia.
  rewrite (Z.eqb_sym 2 j). reflexivity.
Qed.

Lemma servo_channel_turn_ok i st :
  turn_ok i -> 0 <= tv_nsec (th_next st) < NSEC_PER_SEC ->
  exists sw st',
    servo_channel_turn (in_p1 i) (in_p2 i) (in_lat1 i) (in_lat2 i) st
    = loop_next sw st'
    /\ timespec_ns (th_next st') = timespec_ns (th_next st) + 20000000
    /\ 0 <= tv_nsec (th_next st') < NSEC_PER_SEC
    /\ (forall j, 0 <= j < 32 ->
                  Z.testbit (dat_reg st') j = Z.testbit (dat_reg st) j).
Proof.
  intros [Hp1 Hp2] Hn. unfold servo_channel_turn.
  destruct (Z.ltb_spec (in_p1 i) 0); [lia |].
  eexists _, _. split; [reflexivity |].
  cbn [th_next dat_reg tv_sec tv_nsec]. unfold timespec_ns, NSEC_PER_SEC in *.
  cbn [tv_sec tv_nsec].
  pose proof (Z.quot_rem' (tv_nsec (th_next st) + 20000000) 1000000000).
  assert (0 <= Z.rem (tv_nsec (th_next st) + 20000000) 1000000000 < 1000000000)
    by (apply Z.rem_bound_pos; lia).
  split; [lia |]. split; [lia |].
  intros j Hj. rewrite !toggle_servo_bit_spec by exact Hj.
  destruct (Z.testbit (dat_reg st) j), (j =? 2); reflexivity.
Qed.

Lemma servo_channel_loop_ok ins : forall st,
  Forall turn_ok ins -> 0 <= tv_nsec (th_next st) < NSEC_PER_SEC ->
  exists st',
    (forall rest,
        servo_channel_loop (ins ++ rest) st = servo_channel_loop rest st')
    /\ timespec_ns (th_next st')
       = timespec_ns (th_next st) + Z.of_nat (length ins) * 20000000
    /\ 0 <= tv_nsec (th_next st') < NSEC_PER_SEC
    /\ (forall j, 0 <= j < 32 ->
                  Z.testbit (dat_reg st') j = Z.testbit (dat_reg st) j).
Proof.
  induction ins as [| i ins IH]; intros st Hok Hn.
  - exists st. repeat split; try tauto. cbn. lia.
  - inversion Hok as [| ? ? Hi Hrest]; subst.
    destruct (servo_channel_turn_ok i st Hi Hn) as (sw & st1 & E & Ht & Hn1 & Hb).
    destruct (IH st1 Hrest Hn1) as (st' & Hl & Ht' & Hn' & Hb').
    exists st'. split; [| split; [| split]].
    + intros rest. cbn [app servo_channel_loop]. rewrite E. apply Hl.
    + rewrite Ht', Ht. cbn [length]. lia.
    + exact Hn'.
    + intros j Hj. rewrite Hb', Hb by exact Hj. reflexivity.
Qed.



(** X18. The thread leaves the loop at the first turn that reads a
    negative pulse, without advancing [t_next] in that turn, and leaves
    the servo bit of the data register low; every other bit of the
    register is as it was found. *)
Theorem thread_exit_lowers_servo_bit oks bad rest st :
  Forall turn_ok oks -> in_p1 bad < 0 ->
  0 <= tv_nsec (th_next st) < NSEC_PER_SEC ->
  let r := servo_channel_loop (oks ++ bad :: rest) st in
  snd r = true
  /\ Z.testbit (dat_reg (fst r)) SERVO_BIT = false
  /\ (forall j, 0 <= j < 32 -> j <> SERVO_BIT ->
                Z.testbit (dat_reg (fst r)) j = Z.testbit (dat_reg st) j)
  /\ timespec_ns (th_next (fst r))
     = timespec_ns (th_next st) + Z.of_nat (length oks) * 20000000.
Proof.
  intros Hok Hbad Hn r.
  destruct (servo_channel_loop_ok oks st Hok Hn) as (st' & Hl & Ht & Hn' & Hb).
  unfold r. rewrite Hl. cbn [servo_channel_loop].
  unfold servo_channel_turn.
  destruct (Z.ltb_spec (in_p1 bad) 0); [| lia].
  cbn [fst snd dat_reg th_next]. unfold SERVO_BIT.
  split; [reflexivity |]. split; [| split].
  - rewrite lower_servo_bit_spec by lia. apply andb_false_r.
  - intros j Hj Hne.
    rewrite lower_servo_bit_spec, toggle_servo_bit_spec, Hb by exact Hj.
    destruct (Z.eqb_spec j 2); [contradiction |].
    destruct (Z.testbit (dat_reg st) j); reflexivity.
  - exact Ht.
Qed.

Lemma thread_exit_lowers_servo_bit_witness :
  dat_reg
    (fst (servo_channel_loop
            [mkTurn 1500000 1500000 10 10; mkTurn (-1) (-1) 0 0]
            (mkThread 13 (mkTimespec 5 0) 5000000000)))
  = 9.
Proof.
  destruct (thread_exit_lowers_servo_bit [mkTurn 1500000 1500000 10 10]
              (mkTurn (-1) (-1) 0 0) []
              (mkThread 13 (mkTimespec 5 0) 5000000000)) as (H & _).
  - repeat constructor; cbn; lia.
  - cbn. lia.
  - unfold NSEC_PER_SEC. cbn. lia.
  - reflexivity.
Defined.

(** X19. Setting the pin up as an output (lines 155-156) puts 1 in bit 8
    of the configuration register and keeps bits 0 to 7, and clears
    every bit from 9 up: the function fields of the pins above the
    servo pin are zeroed with the rest of its own field. *)
Theorem gpio_set_output_clears_upper_fields con j :
  0 <= j < 32 ->
  Z.testbit (gpio_set_output con) j
  = if j <? 8 then Z.testbit con j else j =? 8.
Proof.
  intros Hj. unfold gpio_set_output.
  change (Z.lnot (Z.shiftl (Z.lnot 1) CON_SHIFT)) with (Z.ones 9).
  change (Z.shiftl 1 CON_SHIFT) with (2 ^ 8).
  rewrite to_uint32_testbit, Z.land_spec, to_uint32_testbit, Z.lor_spec,
    Z.pow2_bits_eqb, Z.testbit_ones_nonneg by lia.
  destruct (Z.ltb_spec j 8), (Z.ltb_spec j 9), (Z.eqb_spec 8 j),
    (Z.eqb_spec j 8); try lia;
    rewrite ?orb_false_r, ?orb_true_r, ?andb_true_r, ?andb_false_r;
    reflexivity.
Qed.

Lemma gpio_set_output_clears_upper_fields_witness :
  Z.testbit (gpio_set_output 4294967295) 12 = false.
Proof.
  rewrite (gpio_set_output_clears_upper_fields 4294967295 12); [reflexivity |].
  lia.
Defined.
